(** * redux-kit: the reducer factories of [reducerKits]

    A shallow embedding of [createReducerBatch], [createReducerGroup],
    [createAsyncReducer], [createAsyncPagingReducer], the two reducer-group
    factories, [configure] and the default result transforms, together with
    the fragment of JavaScript, immer and lodash that these functions rest
    on.

    Conventions of the embedding.
    - A JavaScript value is a [value]; an object is the finite map of its own
      properties ([gmap string value]).  Functions are not values of the
      model.  The members that every object inherits from [Object.prototype]
      are listed in [JS.prototype_members]: a read at a computed key
      ([dataEntity[key]]) finds them when the object has no own property of
      that name ([JS.reads_builtin]), while [JS.get] and [JS.member] are
      used at the fixed names of the source only, none of which is such a
      member.  The built-in objects are not part of a state: an assignment
      that lands on one of them changes no own property of any state, and is
      not recorded.  An own property named [__proto__], which only
      [JSON.parse], a computed key or [defineProperty] create, is treated as
      a property like any other.
    - Numbers are the integers ([Z]), and [+] and [-] are exact.  IEEE
      doubles agree with that on the safe integers ([safe_integer], absolute
      value at most 2^53 - 1); a statement about the sum or difference of an
      arbitrary [offset] is made for operands and result in that range.
    - Evaluation yields an [outcome]: a normal completion, a thrown
      exception, or [Unsupported] where JavaScript's answer depends on
      something the value model does not carry (object identity in [===],
      string/NaN coercions of [+] and [-], lodash's bracket path syntax,
      array drafts addressed through property paths).  No theorem below
      draws a conclusion from an [Unsupported] outcome.
    - [produce base recipe] runs the recipe on a draft of [base]; the base is
      a persistent value, so it is never modified.
    - States are values, compared by their properties.  Where the identity
      of the state object matters (a reducer returning the very object it
      was given), [createAsyncReducer_ref] and [createAsyncPagingReducer_ref]
      take and return the address of the state in a [heap]; they run the
      same recipes, and agree with the reducers on values. *)

From stdpp Require Import gmap strings list fin_maps.
From Stdlib Require Import ZArith Ascii DecimalString.

Set Warnings "-register-all".
Open Scope Z_scope.

(** ** Values and outcomes *)

Inductive value : Type :=
| VUndefined
| VNull
| VBool (b : bool)
| VNum (n : Z)
| VStr (s : string)
| VArr (items : list value)
| VObj (props : gmap string value).

Inductive outcome (A : Type) : Type :=
| Return (a : A)
| Throw
| Unsupported.

Arguments Return {A} a.
Arguments Throw {A}.
Arguments Unsupported {A}.

#[export] Instance outcome_ret : MRet outcome := λ A a, Return a.

#[export] Instance outcome_bind : MBind outcome := λ A B f m,
  match m with
  | Return a => f a
  | Throw => Throw
  | Unsupported => Unsupported
  end.

(** [{ type, payload?, key? }]: an absent payload is [VUndefined], an absent
    key is [None]. *)
Record action : Type := Action {
  type : string;
  payload : value;
  key : option string
}.

(** ** The JavaScript fragment *)

Module JS.

(** ToBoolean. *)
Definition truthy (v : value) : bool :=
  match v with
  | VUndefined | VNull => false
  | VBool b => b
  | VNum n => negb (n =? 0)
  | VStr s => negb (bool_decide (s = ""))
  | VArr _ | VObj _ => true
  end.

(** [a || b]. *)
Definition or (a b : value) : value := if truthy a then a else b.

Definition is_reference (v : value) : bool :=
  match v with
  | VArr _ | VObj _ => true
  | _ => false
  end.

(** [a === b]; two arrays or objects are equal when they are the same
    reference, which their contents do not determine. *)
Definition strict_eq (a b : value) : outcome bool :=
  match a, b with
  | VUndefined, VUndefined => Return true
  | VNull, VNull => Return true
  | VBool x, VBool y => Return (bool_decide (x = y))
  | VNum x, VNum y => Return (x =? y)
  | VStr x, VStr y => Return (bool_decide (x = y))
  | _, _ => if is_reference a && is_reference b then Unsupported else Return false
  end.

(** [a + b] and [a - b] on numbers, computed on the integers.  This is the
    double the source computes whenever the operands and the result satisfy
    [safe_integer] below; outside that range a double rounds. *)
Definition add (a b : value) : outcome value :=
  match a, b with
  | VNum x, VNum y => Return (VNum (x + y))
  | _, _ => Unsupported
  end.

Definition sub (a b : value) : outcome value :=
  match a, b with
  | VNum x, VNum y => Return (VNum (x - y))
  | _, _ => Unsupported
  end.

(** [Number.isSafeInteger]: the integers that doubles represent and add
    without rounding. *)
Definition safe_integer (n : Z) : Prop := - (2 ^ 53 - 1) ≤ n ≤ 2 ^ 53 - 1.

(** The names that [Object.prototype] defines, hence that every object
    answers to. *)
Definition prototype_members : list string :=
  ["constructor"; "__defineGetter__"; "__defineSetter__"; "hasOwnProperty";
   "__lookupGetter__"; "__lookupSetter__"; "isPrototypeOf";
   "propertyIsEnumerable"; "toString"; "valueOf"; "__proto__";
   "toLocaleString"].

Definition inherited (k : string) : bool := bool_decide (k ∈ prototype_members).

(** [o[k]] at a computed key reaches a member of [Object.prototype] when [k]
    names one and [o] has no own property [k].  Each of these members is a
    function, and [__proto__] reads as the prototype itself: all of them are
    truthy, and none is part of [o]. *)
Definition reads_builtin (o : gmap string value) (k : string) : bool :=
  inherited k && bool_decide (o !! k = None).

(** [o.k] on an object, for a name [k] that is not in [prototype_members]:
    [undefined] when [k] is not an own property. *)
Definition get (o : gmap string value) (k : string) : value :=
  default VUndefined (o !! k).

(** The canonical property name of an array index. *)
Definition index_key (i : nat) : string :=
  NilEmpty.string_of_uint (Nat.to_uint i).

Definition index_props (l : list value) : gmap string value :=
  list_to_map (imap (λ i x, (index_key i, x)) l).

Definition chars (s : string) : list value :=
  (λ c, VStr (String c EmptyString)) <$> String.list_ascii_of_string s.

(** The own enumerable properties of a value, as object spread and rest
    destructuring see them. *)
Definition own_props (v : value) : gmap string value :=
  match v with
  | VObj o => o
  | VArr l => index_props l
  | VStr s => index_props (chars s)
  | _ => ∅
  end.

(** [v.k] for one of the fixed names the source reads ([data],
    [firstOffset], [clear], [id], [message], [success], [length]), which no
    built-in prototype defines apart from [length]: reading a property of
    [undefined] or [null] throws a TypeError. *)
Definition member (v : value) (k : string) : outcome value :=
  match v with
  | VUndefined | VNull => Throw
  | VArr l =>
      if bool_decide (k = "length") then Return (VNum (Z.of_nat (length l)))
      else Return (get (own_props v) k)
  | VStr s =>
      if bool_decide (k = "length") then Return (VNum (Z.of_nat (String.length s)))
      else Return (get (own_props v) k)
  | _ => Return (get (own_props v) k)
  end.

(** [keys.forEach(key => target[key] = source[key])] over
    [Object.keys(source)], and [{...a, ...b}]. *)
Definition assign_all (source target : gmap string value) : gmap string value :=
  map_fold (λ k v acc, <[k := v]> acc) target source.

Definition spread (a b : gmap string value) : gmap string value :=
  assign_all b (assign_all a ∅).

(** [Array.prototype.findIndex]: the first index at which the callback
    holds, [-1] when there is none. *)
Fixpoint findIndex_from (callback : value → outcome bool) (l : list value) (i : Z)
  : outcome Z :=
  match l with
  | [] => Return (-1)
  | e :: l' =>
      b ← callback e;
      if b : bool then Return i else findIndex_from callback l' (i + 1)
  end.

Definition findIndex (callback : value → outcome bool) (l : list value) : outcome Z :=
  findIndex_from callback l 0.

(** [l.splice(i, 1)] and [l[i] = x] for an index inside the array. *)
Definition splice1 (i : Z) (l : list value) : list value := delete (Z.to_nat i) l.

Definition set_index (i : Z) (x : value) (l : list value) : list value :=
  <[Z.to_nat i := x]> l.

End JS.

(** ** lodash: [_.unset(object, path)] with a string path *)

Module Lodash.

Definition is_word_char (c : Ascii.ascii) : bool :=
  let n := Ascii.nat_of_ascii c in
  ((48 <=? n) && (n <=? 57) || (65 <=? n) && (n <=? 90)
   || (97 <=? n) && (n <=? 122) || (n =? 95))%nat.

Definition has_char (c : Ascii.ascii) (s : string) : bool :=
  existsb (Ascii.eqb c) (String.list_ascii_of_string s).

(** [reIsPlainProp = /^\w*$/]. *)
Definition isPlainProp (s : string) : bool :=
  forallb is_word_char (String.list_ascii_of_string s).

(** [isKey(value, object)] for a string: a plain name, a string that
    [reIsDeepProp] does not match, or a literal property of [object].  A dot
    makes [reIsDeepProp] match; without a dot or an opening bracket it
    cannot. *)
Definition isKey (path : string) (object : gmap string value) : outcome bool :=
  if isPlainProp path then Return true
  else if has_char "."%char path then Return (bool_decide (is_Some (object !! path)))
  else if has_char "["%char path then Unsupported
  else Return true.

(** Splitting at every dot. *)
Fixpoint split_dots (s : string) : list string :=
  match s with
  | EmptyString => [EmptyString]
  | String c s' =>
      if Ascii.eqb c "."%char then EmptyString :: split_dots s'
      else match split_dots s' with
           | seg :: segs => String c seg :: segs
           | [] => [String c EmptyString]
           end
  end.

(** [stringToPath]: on a string without brackets [rePropName] yields the
    runs between dots, and an empty name wherever a dot is followed by a dot
    or by the end. *)
Definition stringToPath (path : string) : outcome (list string) :=
  if has_char "["%char path || has_char "]"%char path then Unsupported
  else Return (split_dots path).

Definition castPath (path : string) (object : gmap string value)
  : outcome (list string) :=
  k ← isKey path object;
  if k : bool then Return [path] else stringToPath path.

(** [baseUnset]: walk to the parent of the last name with [baseGet], then
    [delete parent[last]]; nothing happens when the parent is [null] or
    [undefined], or is a number or boolean.  [castPath] yields no empty path
    for a non-empty string, and lodash releases differ on one. *)
Fixpoint unset_path (names : list string) (object : gmap string value)
  : outcome (gmap string value) :=
  match names with
  | [] => Unsupported
  | [name] => Return (delete name object)
  | name :: rest =>
      match object !! name with
      | Some (VObj child) =>
          child' ← unset_path rest child;
          Return (<[name := VObj child']> object)
      | Some (VArr _) | Some (VStr _) => Unsupported
      | _ => Return object
      end
  end.

Definition unset (object : gmap string value) (path : string)
  : outcome (gmap string value) :=
  names ← castPath path object;
  unset_path names object.

End Lodash.

(** ** immer *)

(** [produce(base, recipe)] for an object base: the recipe's assignments are
    made on a draft, and an exception of the recipe propagates. *)
Definition produce (base : gmap string value)
    (recipe : gmap string value → outcome (gmap string value))
  : outcome (gmap string value) :=
  recipe base.

(** ** Action types *)

(** Modelled from the spec: [ActionTypeMaker] lives in [actionKits], which the
    sources at hand only import.  Each derived type is the prefix followed by
    the lifecycle suffix. *)
Module ActionTypeMaker.
Definition PENDING (p : string) : string := String.append p "_PENDING".
Definition SUCCESS (p : string) : string := String.append p "_SUCCESS".
Definition FAIL (p : string) : string := String.append p "_FAIL".
Definition RESET (p : string) : string := String.append p "_RESET".
Definition UPDATE (p : string) : string := String.append p "_UPDATE".
Definition ADD_LAST (p : string) : string := String.append p "_ADD_LAST".
Definition ADD_FIRST (p : string) : string := String.append p "_ADD_FIRST".
Definition REPLACE (p : string) : string := String.append p "_REPLACE".
Definition REMOVE (p : string) : string := String.append p "_REMOVE".
End ActionTypeMaker.

(** ** Default states *)

Definition defaultAsyncState : gmap string value :=
  <["data" := VNull]> (<["pending" := VBool false]> (<["error" := VNull]> ∅)).

Definition defaultAsyncPagingState : gmap string value :=
  <["data" := VArr []]> (<["offset" := VNum 0]> (<["pending" := VBool false]>
    (<["error" := VNull]> (<["hasMore" := VBool true]> ∅)))).

(** ** createReducerBatch *)

(** A parameter default [state = d] applies to [undefined] only. *)
Definition default_param (state d : value) : value :=
  match state with
  | VUndefined => d
  | _ => state
  end.

Definition createReducerBatch (init : gmap string (string * value))
  : gmap string (value → action → value) :=
  map_fold (λ key option reducers,
      let actionType := option.1 in
      let initialState := JS.or option.2 VNull in
      <[key := λ state action,
                 let state := default_param state initialState in
                 if decide (type action = actionType) then payload action
                 else state]> reducers)
    ∅ init.

(** ** createAsyncReducer *)

(** [action.key] when it passes [if (key)]. *)
Definition truthy_key (a : action) : option string :=
  match key a with
  | Some k => if decide (k = "") then None else Some k
  | None => None
  end.

(** The keyed branch shared by PENDING, SUCCESS and FAIL: create
    [dataEntity] when it is falsy, then either assign into the truthy value
    that [dataEntity[key]] reads or store a fresh record under [key].
    - When the read reaches a member of [Object.prototype], the assignments
      land on that built-in object: no record is created and the records of
      [dataEntity] stay as they are.
    - Assigning a property on a truthy primitive throws in strict mode.
    - A truthy primitive [dataEntity] is read through the prototype of its
      wrapper, whose members the model does not list. *)
Definition with_entity (key : string)
    (existing : gmap string value → gmap string value)
    (fresh : gmap string value)
    (draftState : gmap string value) : outcome (gmap string value) :=
  let dataEntity :=
    if JS.truthy (JS.get draftState "dataEntity") then JS.get draftState "dataEntity"
    else VObj ∅ in
  match dataEntity with
  | VObj entities =>
      if JS.reads_builtin entities key then
        Return (<["dataEntity" := VObj entities]> draftState)
      else
        let entry := JS.get entities key in
        if JS.truthy entry then
          match entry with
          | VObj data =>
              Return (<["dataEntity" := VObj (<[key := VObj (existing data)]> entities)]>
                        draftState)
          | VArr _ => Unsupported
          | _ => Throw
          end
        else
          Return (<["dataEntity" := VObj (<[key := VObj fresh]> entities)]> draftState)
  | VArr _ => Unsupported
  | _ => Unsupported
  end.

Definition async_pending (defaultState : gmap string value) (a : action)
    (draftState : gmap string value) : outcome (gmap string value) :=
  match truthy_key a with
  | Some key =>
      with_entity key (λ data, <["pending" := VBool true]> data)
        (<["pending" := VBool true]> defaultState) draftState
  | None => Return (<["pending" := VBool true]> draftState)
  end.

Definition async_success (a : action) (draftState : gmap string value)
  : outcome (gmap string value) :=
  match truthy_key a with
  | Some key =>
      with_entity key
        (λ data, <["pending" := VBool false]>
                   (<["error" := VNull]> (<["data" := payload a]> data)))
        (<["data" := payload a]> (<["error" := VNull]> (<["pending" := VBool false]> ∅)))
        draftState
  | None =>
      Return (<["pending" := VBool false]>
                (<["error" := VNull]> (<["data" := payload a]> draftState)))
  end.

Definition async_fail (defaultState : gmap string value) (a : action)
    (draftState : gmap string value) : outcome (gmap string value) :=
  match truthy_key a with
  | Some key =>
      with_entity key
        (λ data, <["pending" := VBool false]> (<["error" := payload a]> data))
        (<["pending" := VBool true]> (<["error" := payload a]> defaultState))
        draftState
  | None =>
      Return (<["pending" := VBool false]> (<["error" := payload a]> draftState))
  end.

Definition async_reset (a : action) (draftState : gmap string value)
  : outcome (gmap string value) :=
  match truthy_key a with
  | Some key =>
      if decide (key = "*") then Lodash.unset draftState "dataEntity"
      else Lodash.unset draftState (String.append "dataEntity." key)
  | None =>
      Return (<["pending" := VBool false]>
                (<["error" := VNull]> (<["data" := VNull]> draftState)))
  end.

(** [{...defaultAsyncState, ...initialState}], where an omitted
    [initialState] is [defaultAsyncState]. *)
Definition async_defaultState (initialState : option (gmap string value))
  : gmap string value :=
  JS.spread defaultAsyncState (default defaultAsyncState initialState).

Definition createAsyncReducer (actionTypePrefix : string)
    (initialState : option (gmap string value))
  : option (gmap string value) → action → outcome (gmap string value) :=
  let defaultState := async_defaultState initialState in
  let PENDING := ActionTypeMaker.PENDING actionTypePrefix in
  let SUCCESS := ActionTypeMaker.SUCCESS actionTypePrefix in
  let FAIL := ActionTypeMaker.FAIL actionTypePrefix in
  let RESET := ActionTypeMaker.RESET actionTypePrefix in
  λ state action,
    let state := default defaultState state in
    if decide (type action = PENDING) then produce state (async_pending defaultState action)
    else if decide (type action = SUCCESS) then produce state (async_success action)
    else if decide (type action = FAIL) then produce state (async_fail defaultState action)
    else if decide (type action = RESET) then produce state (async_reset action)
    else Return state.

(** ** createAsyncPagingReducer *)

(** [draftState.data] as the receiver of an array method: anything but an
    array has no such method, and the call throws. *)
Definition draft_data (draftState : gmap string value) : outcome (list value) :=
  match JS.get draftState "data" with
  | VArr items => Return items
  | _ => Throw
  end.

Definition paging_pending (a : action) (draftState : gmap string value)
  : outcome (gmap string value) :=
  clear ← JS.member (payload a) "clear";
  let rest := delete "clear" (JS.own_props (payload a)) in
  let draftState :=
    if JS.truthy clear then <["offset" := VNum 0]> (<["data" := VArr []]> draftState)
    else draftState in
  let draftState := JS.assign_all rest draftState in
  Return (<["hasMore" := VBool true]> (<["pending" := VBool true]> draftState)).

Definition paging_success (a : action) (draftState : gmap string value)
  : outcome (gmap string value) :=
  data ← JS.member (payload a) "data";
  firstOffset ← JS.member (payload a) "firstOffset";
  let rest := delete "firstOffset" (delete "data" (JS.own_props (payload a))) in
  let newData := match data with VArr l => l | _ => [] end in
  let length := Z.of_nat (length newData) in
  draftState ←
    (if JS.truthy firstOffset then Return (<["data" := VArr newData]> draftState)
     else items ← draft_data draftState;
          Return (<["data" := VArr (items ++ newData)]> draftState));
  offset ←
    (if JS.truthy firstOffset then Return (VNum length)
     else JS.add (JS.get draftState "offset") (VNum length));
  let draftState := <["offset" := offset]> draftState in
  let draftState := <["hasMore" := VBool (0 <? length)]> draftState in
  let draftState := <["error" := VNull]> draftState in
  let draftState := JS.assign_all rest draftState in
  Return (<["pending" := VBool false]> draftState).

Definition paging_add_last (a : action) (draftState : gmap string value)
  : outcome (gmap string value) :=
  items ← draft_data draftState;
  let draftState := <["data" := VArr (items ++ [payload a])]> draftState in
  offset ← JS.add (JS.get draftState "offset") (VNum 1);
  Return (<["offset" := offset]> draftState).

Definition paging_add_first (a : action) (draftState : gmap string value)
  : outcome (gmap string value) :=
  items ← draft_data draftState;
  let draftState := <["data" := VArr (payload a :: items)]> draftState in
  offset ← JS.add (JS.get draftState "offset") (VNum 1);
  Return (<["offset" := offset]> draftState).

Definition paging_update (a : action) (draftState : gmap string value)
  : outcome (gmap string value) :=
  if JS.truthy (JS.get draftState "data") then
    let updateData := payload a in
    items ← draft_data draftState;
    index ← JS.findIndex (λ e,
        x ← JS.member e "id"; y ← JS.member updateData "id"; JS.strict_eq x y) items;
    if 0 <=? index then
      Return (<["data" := VArr (JS.set_index index (VObj (JS.own_props updateData)) items)]>
                draftState)
    else Return draftState
  else Return draftState.

Definition paging_replace (a : action) (draftState : gmap string value)
  : outcome (gmap string value) :=
  searchId ← JS.member (payload a) "id";
  items ← draft_data draftState;
  replaceIndex ← JS.findIndex (λ e, x ← JS.member e "id"; JS.strict_eq x searchId) items;
  if 0 <=? replaceIndex then
    data ← JS.member (payload a) "data";
    if JS.truthy data && negb (match data with VArr _ => true | _ => false end) then
      Return (<["data" := VArr (JS.set_index replaceIndex data items)]> draftState)
    else Return draftState
  else Return draftState.

Definition paging_remove (a : action) (draftState : gmap string value)
  : outcome (gmap string value) :=
  let id := payload a in
  items ← draft_data draftState;
  index ← JS.findIndex (λ e, x ← JS.member e "id"; JS.strict_eq x id) items;
  if 0 <=? index then
    let draftState := <["data" := VArr (JS.splice1 index items)]> draftState in
    offset ← JS.sub (JS.get draftState "offset") (VNum 1);
    Return (<["offset" := offset]> draftState)
  else Return draftState.

Definition paging_fail (a : action) (draftState : gmap string value)
  : outcome (gmap string value) :=
  Return (<["pending" := VBool false]> (<["error" := payload a]> draftState)).

(** [{...defaultAsyncPagingState, ...initialState}], where an omitted
    [initialState] is [defaultAsyncPagingState]. *)
Definition paging_defaultState (initialState : option (gmap string value))
  : gmap string value :=
  JS.spread defaultAsyncPagingState (default defaultAsyncPagingState initialState).

Definition createAsyncPagingReducer (actionTypePrefix : string)
    (initialState : option (gmap string value))
  : option (gmap string value) → action → outcome (gmap string value) :=
  let defaultState := paging_defaultState initialState in
  let PENDING := ActionTypeMaker.PENDING actionTypePrefix in
  let SUCCESS := ActionTypeMaker.SUCCESS actionTypePrefix in
  let FAIL := ActionTypeMaker.FAIL actionTypePrefix in
  let RESET := ActionTypeMaker.RESET actionTypePrefix in
  let UPDATE := ActionTypeMaker.UPDATE actionTypePrefix in
  let ADD_LAST := ActionTypeMaker.ADD_LAST actionTypePrefix in
  let ADD_FIRST := ActionTypeMaker.ADD_FIRST actionTypePrefix in
  let REPLACE := ActionTypeMaker.REPLACE actionTypePrefix in
  let REMOVE := ActionTypeMaker.REMOVE actionTypePrefix in
  λ state action,
    let state := default defaultState state in
    if decide (type action = PENDING) then produce state (paging_pending action)
    else if decide (type action = SUCCESS) then produce state (paging_success action)
    else if decide (type action = ADD_LAST) then produce state (paging_add_last action)
    else if decide (type action = ADD_FIRST) then produce state (paging_add_first action)
    else if decide (type action = UPDATE) then produce state (paging_update action)
    else if decide (type action = REPLACE) then produce state (paging_replace action)
    else if decide (type action = REMOVE) then produce state (paging_remove action)
    else if decide (type action = FAIL) then produce state (paging_fail action)
    else if decide (type action = RESET) then produce defaultState (λ draftState, Return draftState)
    else Return state.

(** ** Derived action types and typing of states *)

Definition async_types (p : string) : list string :=
  [ActionTypeMaker.PENDING p; ActionTypeMaker.SUCCESS p;
   ActionTypeMaker.FAIL p; ActionTypeMaker.RESET p].

Definition paging_types (p : string) : list string :=
  [ActionTypeMaker.PENDING p; ActionTypeMaker.SUCCESS p;
   ActionTypeMaker.ADD_LAST p; ActionTypeMaker.ADD_FIRST p;
   ActionTypeMaker.UPDATE p; ActionTypeMaker.REPLACE p;
   ActionTypeMaker.REMOVE p; ActionTypeMaker.FAIL p; ActionTypeMaker.RESET p].

(** [IAsyncState]: [dataEntity] is optional and maps keys to records. *)
Definition async_typed (s : gmap string value) : Prop :=
  s !! "dataEntity" = None
  ∨ ∃ entities : gmap string value,
      s !! "dataEntity" = Some (VObj entities)
      ∧ ∀ k v, entities !! k = Some v → ∃ o, v = VObj o.

(** The state has no record under [k]: there is no [dataEntity], or it has
    no property [k]. *)
Definition no_entity (s : gmap string value) (k : string) : Prop :=
  s !! "dataEntity" = None
  ∨ ∃ entities : gmap string value,
      s !! "dataEntity" = Some (VObj entities) ∧ entities !! k = None.

(** [IAsyncPagingData]: a record whose [id], when it has one, is a
    primitive. *)
Definition is_item (x : value) : Prop :=
  ∃ o : gmap string value, x = VObj o ∧ JS.is_reference (JS.get o "id") = false.

(** The item's [id] field is [v]; an item without the field has the id
    [undefined]. *)
Definition has_id (v x : value) : Prop :=
  ∃ o : gmap string value, x = VObj o ∧ JS.get o "id" = v.

(** [IAsyncPagingState]: [data] is an array of items and [offset] a
    number. *)
Definition paging_typed (s : gmap string value) : Prop :=
  ∃ (items : list value) (n : Z),
    s !! "data" = Some (VArr items) ∧ Forall is_item items
    ∧ s !! "offset" = Some (VNum n).

(** The payload is [undefined] or [null]. *)
Definition absent (v : value) : bool :=
  match v with
  | VUndefined | VNull => true
  | _ => false
  end.

(** A key without lodash path syntax. *)
Definition plain_key (k : string) : bool :=
  negb (Lodash.has_char "."%char k || Lodash.has_char "["%char k
        || Lodash.has_char "]"%char k).

(** ** createReducerGroup *)

(** A callback [(state, action) => value] that reads its arguments and
    returns a value or throws.  A callback that assigns to the object it is
    handed (the draft in an update, the live state in a reset) is not of
    this type, and no statement below covers one. *)
Definition callback : Type := value → action → outcome value.

(** [IReducerGroupNode]: an omitted [initState] is [undefined], an omitted or
    [null] [onUpdate] is [None]. *)
Record IReducerGroupNode : Type := GroupNode {
  node_type : string;
  initState : value;
  onUpdate : option callback
}.

Record IReducerGroupResetNode : Type := ResetNode {
  reset_type : string;
  reset_onUpdate : option callback
}.

(** [mainInitialState]: every key starts at [option.initState || null]. *)
Definition mainInitialState (options : list (string * IReducerGroupNode))
  : gmap string value :=
  foldl (λ state kv, <[kv.1 := JS.or (initState kv.2) VNull]> state) ∅ options.

(** The first loop of the reducer, over the entries of [options] in
    [Object.keys] order: the first entry whose type is the action's decides.
    [typeof state === 'object'] holds of objects, arrays and [null];
    assigning a property on [null] throws. *)
Fixpoint group_update (options : list (string * IReducerGroupNode)) (state : value)
    (a : action) : option (outcome value) :=
  match options with
  | [] => None
  | (key, option) :: options' =>
      if decide (node_type option = type a) then
        Some match state with
             | VObj draftState =>
                 v ← match onUpdate option with
                     | Some f => f (VObj draftState) a
                     | None => Return (payload a)
                     end;
                 Return (VObj (<[key := v]> draftState))
             | VNull => Throw
             | VArr _ => Unsupported
             | _ => Return (payload a)
             end
      else group_update options' state a
  end.

(** The reset branch: a custom callback is called with the state and its
    result is dropped; without one every key is assigned its raw
    [initState]. *)
Definition group_reset (options : list (string * IReducerGroupNode))
    (resetOption : IReducerGroupResetNode) (state : value) (a : action)
  : outcome value :=
  match reset_onUpdate resetOption with
  | Some f => _ ← f state a; Return state
  | None =>
      match options, state with
      | [], _ => Return state
      | _, VObj draftState =>
          Return (VObj (foldl (λ d kv, <[kv.1 := initState kv.2]> d) draftState options))
      | _, VArr _ => Unsupported
      | _, _ => Throw
      end
  end.

Definition createReducerGroup (options : list (string * IReducerGroupNode))
    (resetOption : option IReducerGroupResetNode) : value → action → outcome value :=
  λ state action,
    let state := default_param state (VObj (mainInitialState options)) in
    match group_update options state action with
    | Some result => result
    | None =>
        match resetOption with
        | Some reset =>
            if decide (reset_type reset = type action)
            then group_reset options reset state action
            else Return state
        | None => Return state
        end
    end.

(** ** createAsyncReducerGroup and createAsyncPagingReducerGroup *)

(** [string | [string, State]]. *)
Inductive name_type : Type :=
| TypeOnly (actionType : string)
| TypeAndState (actionType : string) (initialState : gmap string value).

Definition createAsyncReducerGroup (nameTypePairs : gmap string name_type)
  : gmap string (option (gmap string value) → action → outcome (gmap string value)) :=
  map_fold (λ name nt group,
      <[name := match nt with
                | TypeOnly t => createAsyncReducer t None
                | TypeAndState t i => createAsyncReducer t (Some i)
                end]> group)
    ∅ nameTypePairs.

Definition createAsyncPagingReducerGroup (nameTypePairs : gmap string name_type)
  : gmap string (option (gmap string value) → action → outcome (gmap string value)) :=
  map_fold (λ name nt group,
      <[name := match nt with
                | TypeOnly t => createAsyncPagingReducer t None
                | TypeAndState t i => createAsyncPagingReducer t (Some i)
                end]> group)
    ∅ nameTypePairs.

(** The prefix of a group entry. *)
Definition actionType_of (nt : name_type) : string :=
  match nt with
  | TypeOnly t => t
  | TypeAndState t _ => t
  end.

(** ** configure and the default result transforms *)

(** [configure] and [getConfig] over the module variable [_config], which is
    passed in and returned.  The settings are callbacks, [null] or
    [undefined]; the functions only copy them, so their type is left
    open. *)
Module Config.
Section Configure.
Context {V : Type} (_defaultConfig : gmap string V).

(** [var _config = { ..._defaultConfig }]. *)
Definition initial : gmap string V := _defaultConfig ∪ ∅.

(** [_config = { ..._defaultConfig, ...config }; return _config]: the pair of
    the new [_config] and the returned object. *)
Definition configure (config _config : gmap string V) : gmap string V * gmap string V :=
  let _config := config ∪ (_defaultConfig ∪ ∅) in
  (_config, _config).

Definition getConfig (_config : gmap string V) : gmap string V := _config.

End Configure.
End Config.

(** [v?.k]. *)
Definition optional_member (v : value) (k : string) : outcome value :=
  if absent v then Return VUndefined else JS.member v k.

(** The default [transformSuccessResult]: [result?.data]. *)
Definition transformSuccessResult (result : value) : outcome value :=
  optional_member result "data".

(** The default [transformFailResult]: [{ message: result.message }] when
    [result?.success] is the boolean [false], [null] otherwise. *)
Definition transformFailResult (result : value) : outcome value :=
  success ← optional_member result "success";
  match success with
  | VBool false =>
      message ← JS.member result "message";
      Return (VObj (<["message" := message]> ∅))
  | _ => Return VNull
  end.

(** ** Notions used by the further properties *)

(** The records of a state: those of its [dataEntity], none when it has no
    [dataEntity]. *)
Definition entities_of (s : gmap string value) : gmap string value :=
  match s !! "dataEntity" with
  | Some (VObj entities) => entities
  | _ => ∅
  end.

(** [offset] is the number of loaded items. *)
Definition offset_tracks (s : gmap string value) : Prop :=
  ∃ items : list value,
    s !! "data" = Some (VArr items) ∧ Forall is_item items
    ∧ s !! "offset" = Some (VNum (Z.of_nat (length items))).

(** The lifecycle suffixes of [ActionTypeMaker]. *)
Definition suffixes : list string :=
  ["_PENDING"; "_SUCCESS"; "_ADD_LAST"; "_ADD_FIRST"; "_UPDATE"; "_REPLACE";
   "_REMOVE"; "_FAIL"; "_RESET"].

(** ** State objects by reference *)

(** A state handed to a reducer is an object with an identity.  A [heap]
    maps the address of each state object to its properties; two names for
    the same object are the same address, and a copy lives at another
    address. *)
Definition address : Type := positive.

Definition heap : Type := gmap address (gmap string value).

(** A new object: an address the heap does not use yet. *)
Definition allocate (o : gmap string value) (h : heap) : address * heap :=
  let l := fresh (dom h) in (l, <[l := o]> h).

Section ByReference.

(** What [produce] returns is immer's decision: the base itself when the
    recipe changed nothing, a new object otherwise.  [finish h base action o]
    stands for that decision, given the heap, the address of the base, the
    action that fixes the recipe, and the properties [o] the recipe leaves;
    the reducers are defined for any such decision. *)
Context (finish : heap → address → action → gmap string value → address * heap).

Definition produce_ref (h : heap) (base : address) (a : action)
    (recipe : gmap string value → outcome (gmap string value))
  : outcome (address * heap) :=
  match h !! base with
  | Some draft => o ← recipe draft; Return (finish h base a o)
  | None => Unsupported
  end.

(** [createAsyncReducer] with the state as a reference; [defaultState] is the
    address of the closure's default state object.  The [default] branch is
    [return state]: the reference held by the parameter, with no call of
    [produce]. *)
Definition createAsyncReducer_ref (actionTypePrefix : string)
    (initialState : option (gmap string value)) (defaultState : address)
  : heap → option address → action → outcome (address * heap) :=
  let defaults := async_defaultState initialState in
  let PENDING := ActionTypeMaker.PENDING actionTypePrefix in
  let SUCCESS := ActionTypeMaker.SUCCESS actionTypePrefix in
  let FAIL := ActionTypeMaker.FAIL actionTypePrefix in
  let RESET := ActionTypeMaker.RESET actionTypePrefix in
  λ h state action,
    let state := default defaultState state in
    if decide (type action = PENDING) then
      produce_ref h state action (async_pending defaults action)
    else if decide (type action = SUCCESS) then
      produce_ref h state action (async_success action)
    else if decide (type action = FAIL) then
      produce_ref h state action (async_fail defaults action)
    else if decide (type action = RESET) then
      produce_ref h state action (async_reset action)
    else Return (state, h).

(** [createAsyncPagingReducer] with the state as a reference. *)
Definition createAsyncPagingReducer_ref (actionTypePrefix : string)
    (initialState : option (gmap string value)) (defaultState : address)
  : heap → option address → action → outcome (address * heap) :=
  let PENDING := ActionTypeMaker.PENDING actionTypePrefix in
  let SUCCESS := ActionTypeMaker.SUCCESS actionTypePrefix in
  let FAIL := ActionTypeMaker.FAIL actionTypePrefix in
  let RESET := ActionTypeMaker.RESET actionTypePrefix in
  let UPDATE := ActionTypeMaker.UPDATE actionTypePrefix in
  let ADD_LAST := ActionTypeMaker.ADD_LAST actionTypePrefix in
  let ADD_FIRST := ActionTypeMaker.ADD_FIRST actionTypePrefix in
  let REPLACE := ActionTypeMaker.REPLACE actionTypePrefix in
  let REMOVE := ActionTypeMaker.REMOVE actionTypePrefix in
  λ h state action,
    let state := default defaultState state in
    if decide (type action = PENDING) then
      produce_ref h state action (paging_pending action)
    else if decide (type action = SUCCESS) then
      produce_ref h state action (paging_success action)
    else if decide (type action = ADD_LAST) then
      produce_ref h state action (paging_add_last action)
    else if decide (type action = ADD_FIRST) then
      produce_ref h state action (paging_add_first action)
    else if decide (type action = UPDATE) then
      produce_ref h state action (paging_update action)
    else if decide (type action = REPLACE) then
      produce_ref h state action (paging_replace action)
    else if decide (type action = REMOVE) then
      produce_ref h state action (paging_remove action)
    else if decide (type action = FAIL) then
      produce_ref h state action (paging_fail action)
    else if decide (type action = RESET) then
      produce_ref h defaultState action (λ draftState, Return draftState)
    else Return (state, h).

End ByReference.

(** A [finish] that keeps what the recipe leaves: the object it returns
    holds the properties [o]. *)
Definition finish_keeps
    (finish : heap → address → action → gmap string value → address * heap) : Prop :=
  ∀ h base a o, (finish h base a o).2 !! (finish h base a o).1 = Some o.

(** The [finish] of a [produce] that never returns its base. *)
Definition always_copy : heap → address → action → gmap string value → address * heap :=
  λ h _ _ o, allocate o h.

(** * Properties *)

(** A concrete number is a safe integer. *)
Ltac safe_integer_holds :=
  unfold JS.safe_integer; split; apply Z.leb_le; vm_compute; reflexivity.

(** ** Objects *)

(** The fixed names that the source reads with [JS.get] and [JS.member] are
    not names of [Object.prototype]. *)
Lemma fixed_names_not_inherited :
  Forall (λ k, JS.inherited k = false)
    ["dataEntity"; "data"; "error"; "pending"; "offset"; "hasMore";
     "firstOffset"; "clear"; "id"; "message"; "success"; "length"].
Proof. repeat constructor. Qed.

Lemma lookup_assign_all (source target : gmap string value) (k : string) :
  JS.assign_all source target !! k
  = match source !! k with Some v => Some v | None => target !! k end.
Proof.
  unfold JS.assign_all.
  apply (map_fold_weak_ind
           (λ r m, r !! k = match m !! k with Some v => Some v | None => target !! k end)).
  - by rewrite lookup_empty.
  - intros i x m r Hi IH. destruct (decide (i = k)) as [->|Hne].
    + by rewrite !lookup_insert_eq.
    + by rewrite !lookup_insert_ne.
Qed.

Lemma assign_all_union (source target : gmap string value) :
  JS.assign_all source target = source ∪ target.
Proof.
  apply map_eq. intros k. rewrite lookup_assign_all, lookup_union.
  destruct (source !! k), (target !! k); reflexivity.
Qed.

Lemma lookup_spread (a b : gmap string value) (k : string) :
  JS.spread a b !! k = match b !! k with Some v => Some v | None => a !! k end.
Proof.
  unfold JS.spread. rewrite !lookup_assign_all, lookup_empty.
  destruct (b !! k), (a !! k); reflexivity.
Qed.

(** ** Action types are pairwise distinct *)

Lemma suffix_neq (p s1 s2 : string) :
  s1 ≠ s2 → String.append p s1 ≠ String.append p s2.
Proof. intros Hne Heq. by apply Hne, (String.app_inj p). Qed.

Ltac distinct_types :=
  unfold ActionTypeMaker.PENDING, ActionTypeMaker.SUCCESS, ActionTypeMaker.FAIL,
    ActionTypeMaker.RESET, ActionTypeMaker.UPDATE, ActionTypeMaker.ADD_LAST,
    ActionTypeMaker.ADD_FIRST, ActionTypeMaker.REPLACE, ActionTypeMaker.REMOVE in *;
  match goal with
  | H : String.append ?p _ = String.append ?p _ |- _ =>
      exfalso; revert H; apply suffix_neq; discriminate
  end.

(** Select the branch of the [switch] that a hypothesis on [type a] names. *)
Ltac switch_on H :=
  unfold createAsyncReducer, createAsyncPagingReducer, produce; cbv zeta;
  rewrite H;
  repeat (case_decide; [try distinct_types | try congruence]);
  try reflexivity.

Section Dispatch.
Context (p : string) (init state : option (gmap string value)) (a : action).

Let asyncDefault : gmap string value := async_defaultState init.
Let pagingDefault : gmap string value := paging_defaultState init.

Lemma async_on_PENDING :
  type a = ActionTypeMaker.PENDING p →
  createAsyncReducer p init state a
  = async_pending asyncDefault a (default asyncDefault state).
Proof. intros H. by switch_on H. Qed.

Lemma async_on_SUCCESS :
  type a = ActionTypeMaker.SUCCESS p →
  createAsyncReducer p init state a = async_success a (default asyncDefault state).
Proof. intros H. by switch_on H. Qed.

Lemma async_on_FAIL :
  type a = ActionTypeMaker.FAIL p →
  createAsyncReducer p init state a
  = async_fail asyncDefault a (default asyncDefault state).
Proof. intros H. by switch_on H. Qed.

Lemma async_on_RESET :
  type a = ActionTypeMaker.RESET p →
  createAsyncReducer p init state a = async_reset a (default asyncDefault state).
Proof. intros H. by switch_on H. Qed.

Lemma paging_on_PENDING :
  type a = ActionTypeMaker.PENDING p →
  createAsyncPagingReducer p init state a
  = paging_pending a (default pagingDefault state).
Proof. intros H. by switch_on H. Qed.

Lemma paging_on_SUCCESS :
  type a = ActionTypeMaker.SUCCESS p →
  createAsyncPagingReducer p init state a
  = paging_success a (default pagingDefault state).
Proof. intros H. by switch_on H. Qed.

Lemma paging_on_ADD_LAST :
  type a = ActionTypeMaker.ADD_LAST p →
  createAsyncPagingReducer p init state a
  = paging_add_last a (default pagingDefault state).
Proof. intros H. by switch_on H. Qed.

Lemma paging_on_ADD_FIRST :
  type a = ActionTypeMaker.ADD_FIRST p →
  createAsyncPagingReducer p init state a
  = paging_add_first a (default pagingDefault state).
Proof. intros H. by switch_on H. Qed.

Lemma paging_on_UPDATE :
  type a = ActionTypeMaker.UPDATE p →
  createAsyncPagingReducer p init state a
  = paging_update a (default pagingDefault state).
Proof. intros H. by switch_on H. Qed.

Lemma paging_on_REPLACE :
  type a = ActionTypeMaker.REPLACE p →
  createAsyncPagingReducer p init state a
  = paging_replace a (default pagingDefault state).
Proof. intros H. by switch_on H. Qed.

Lemma paging_on_REMOVE :
  type a = ActionTypeMaker.REMOVE p →
  createAsyncPagingReducer p init state a
  = paging_remove a (default pagingDefault state).
Proof. intros H. by switch_on H. Qed.

Lemma paging_on_FAIL :
  type a = ActionTypeMaker.FAIL p →
  createAsyncPagingReducer p init state a
  = paging_fail a (default pagingDefault state).
Proof. intros H. by switch_on H. Qed.

Lemma paging_on_RESET :
  type a = ActionTypeMaker.RESET p →
  createAsyncPagingReducer p init state a = Return pagingDefault.
Proof. intros H. by switch_on H. Qed.

End Dispatch.

(** ** The simple reducer: top-level transitions *)

(** C1.  SUCCESS without a key: whatever the prior state (or with no state at
    all), the reducer returns a state whose [data] is the payload, whose
    [error] is [null] and whose [pending] is [false]. *)
Theorem async_success_sets_data (p : string) (init state : option (gmap string value))
    (a : action) :
  type a = ActionTypeMaker.SUCCESS p →
  truthy_key a = None →
  ∃ s' : gmap string value,
    createAsyncReducer p init state a = Return s'
    ∧ s' !! "data" = Some (payload a)
    ∧ s' !! "error" = Some VNull
    ∧ s' !! "pending" = Some (VBool false).
Proof.
  intros Htype Hkey. rewrite async_on_SUCCESS by done.
  unfold async_success. rewrite Hkey. eexists. split; [reflexivity|].
  by simplify_map_eq.
Qed.

Lemma async_success_sets_data_witness :
  ∃ s' : gmap string value,
    createAsyncReducer "FETCH_USER" None
      (Some (<["data" := VNum 1]> (<["error" := VStr "old"]> (<["pending" := VBool true]> ∅))))
      (Action "FETCH_USER_SUCCESS" (VStr "profile") None) = Return s'
    ∧ s' !! "data" = Some (VStr "profile")
    ∧ s' !! "error" = Some VNull
    ∧ s' !! "pending" = Some (VBool false).
Proof.
  apply (async_success_sets_data "FETCH_USER" None _
           (Action "FETCH_USER_SUCCESS" (VStr "profile") None)); reflexivity.
Defined.

(** C5.  FAIL without a key: [error] becomes the payload and [pending]
    becomes [false]; every other property of the state, [data] and
    [dataEntity] among them, is the one of the prior state. *)
Theorem async_fail_keeps_data (p : string) (init : option (gmap string value))
    (s : gmap string value) (a : action) :
  type a = ActionTypeMaker.FAIL p →
  truthy_key a = None →
  ∃ s' : gmap string value,
    createAsyncReducer p init (Some s) a = Return s'
    ∧ s' !! "error" = Some (payload a)
    ∧ s' !! "pending" = Some (VBool false)
    ∧ s' !! "data" = s !! "data"
    ∧ s' !! "dataEntity" = s !! "dataEntity"
    ∧ ∀ k, k ≠ "error" → k ≠ "pending" → s' !! k = s !! k.
Proof.
  intros Htype Hkey. rewrite async_on_FAIL by done.
  unfold async_fail. rewrite Hkey. eexists. split; [reflexivity|].
  repeat split; try by simplify_map_eq.
  intros k ? ?. by simplify_map_eq.
Qed.

Lemma async_fail_keeps_data_witness :
  ∃ s' : gmap string value,
    createAsyncReducer "FETCH_USER" None
      (Some (<["data" := VNum 1]> (<["pending" := VBool true]> ∅)))
      (Action "FETCH_USER_FAIL" (VStr "timeout") None) = Return s'
    ∧ s' !! "error" = Some (VStr "timeout")
    ∧ s' !! "data" = Some (VNum 1).
Proof.
  destruct (async_fail_keeps_data "FETCH_USER" None
              (<["data" := VNum 1]> (<["pending" := VBool true]> ∅))
              (Action "FETCH_USER_FAIL" (VStr "timeout") None))
    as (s' & Hs & Herr & _ & Hdata & _); [reflexivity | reflexivity |].
  exists s'. split; [exact Hs|]. split; [exact Herr|]. exact Hdata.
Defined.

(** ** Unmatched action types *)

Ltac skip_derived Hnot :=
  let Heq := fresh in
  repeat (case_decide as Heq;
          [exfalso; apply Hnot; rewrite Heq;
           cbv [async_types paging_types]; set_solver | clear Heq]).

(** The reducers by reference and by value agree: started on the object at
    an address, the reference reducer returns an address that holds exactly
    the state the value reducer returns. *)
Lemma createAsyncReducer_ref_value
    (finish : heap → address → action → gmap string value → address * heap)
    (p : string) (init : option (gmap string value)) (d l : address) (h : heap)
    (s s' : gmap string value) (a : action) :
  finish_keeps finish →
  h !! l = Some s →
  createAsyncReducer p init (Some s) a = Return s' →
  ∃ (l' : address) (h' : heap),
    createAsyncReducer_ref finish p init d h (Some l) a = Return (l', h')
    ∧ h' !! l' = Some s'.
Proof.
  intros Hkeeps Hl. unfold createAsyncReducer, createAsyncReducer_ref.
  cbv zeta. simpl default. unfold produce, produce_ref. rewrite Hl.
  repeat case_decide; intros Hs; try rewrite Hs; simpl;
    try (eexists _, _; split; [apply f_equal, surjective_pairing | apply Hkeeps]).
  injection Hs as <-. by exists l, h.
Qed.

Lemma createAsyncPagingReducer_ref_value
    (finish : heap → address → action → gmap string value → address * heap)
    (p : string) (init : option (gmap string value)) (d l : address) (h : heap)
    (s s' : gmap string value) (a : action) :
  finish_keeps finish →
  h !! l = Some s →
  h !! d = Some (paging_defaultState init) →
  createAsyncPagingReducer p init (Some s) a = Return s' →
  ∃ (l' : address) (h' : heap),
    createAsyncPagingReducer_ref finish p init d h (Some l) a = Return (l', h')
    ∧ h' !! l' = Some s'.
Proof.
  intros Hkeeps Hl Hd. unfold createAsyncPagingReducer, createAsyncPagingReducer_ref.
  cbv zeta. simpl default. unfold produce, produce_ref. rewrite Hl, Hd.
  repeat case_decide; intros Hs; try rewrite Hs; simpl;
    try (eexists _, _; split; [apply f_equal, surjective_pairing | apply Hkeeps]).
  injection Hs as <-. by exists l, h.
Qed.

Lemma always_copy_keeps : finish_keeps always_copy.
Proof. intros h base a o. unfold always_copy, allocate. apply lookup_insert_eq. Qed.

(** A copy is another object. *)
Lemma allocate_fresh (o : gmap string value) (h : heap) (l : address) :
  is_Some (h !! l) → (allocate o h).1 ≠ l.
Proof.
  intros Hl Heq. apply elem_of_dom in Hl. rewrite <- Heq in Hl.
  by apply is_fresh in Hl.
Qed.

(** C3.  On a defined state and an action whose type is none of the derived
    types, both reducers return the state they were given, and they return
    it by reference: the [default] branch is [return state], outside any
    [produce].  By value, the result has the properties of the argument.
    By reference, whatever [produce] does in the other branches, the result
    is the address that was passed in and the heap is the one before the
    call, so no object was created: a reducer answering with a copy would
    return another address. *)
Theorem unrelated_action_returns_state (p : string) (init : option (gmap string value))
    (s : gmap string value) (a : action) :
  (type a ∉ async_types p →
   createAsyncReducer p init (Some s) a = Return s
   ∧ ∀ finish (defaultState : address) (h : heap) (l : address),
       createAsyncReducer_ref finish p init defaultState h (Some l) a = Return (l, h))
  ∧ (type a ∉ paging_types p →
     createAsyncPagingReducer p init (Some s) a = Return s
     ∧ ∀ finish (defaultState : address) (h : heap) (l : address),
         createAsyncPagingReducer_ref finish p init defaultState h (Some l) a
         = Return (l, h)).
Proof.
  split; intros Hnot; (split; [|intros finish defaultState h l]);
    unfold createAsyncReducer, createAsyncPagingReducer,
      createAsyncReducer_ref, createAsyncPagingReducer_ref; cbv zeta;
    skip_derived Hnot; reflexivity.
Qed.

Lemma unrelated_action_returns_state_witness :
  let s : gmap string value := <["data" := VNum 1]> ∅ in
  let h : heap := <[1%positive := s]> ∅ in
  let a := Action "UNRELATED" VUndefined None in
  createAsyncReducer "FETCH_USER" None (Some s) a = Return s
  ∧ createAsyncPagingReducer "FETCH_USER" None (Some s) a = Return s
  ∧ createAsyncReducer_ref always_copy "FETCH_USER" None 2%positive h (Some 1%positive) a
    = Return (1%positive, h)
  ∧ createAsyncPagingReducer_ref always_copy "FETCH_USER" None 2%positive h
      (Some 1%positive) a
    = Return (1%positive, h)
  ∧ (allocate s h).1 ≠ 1%positive.
Proof.
  intros s h a.
  pose proof (unrelated_action_returns_state "FETCH_USER" None s a) as [Ha Hp].
  assert (Hasync : type a ∉ async_types "FETCH_USER").
  { simpl. intros Hin.
    repeat (apply elem_of_cons in Hin as [Hin|Hin]; [discriminate Hin|]).
    by apply elem_of_nil in Hin. }
  assert (Hpaging : type a ∉ paging_types "FETCH_USER").
  { simpl. intros Hin.
    repeat (apply elem_of_cons in Hin as [Hin|Hin]; [discriminate Hin|]).
    by apply elem_of_nil in Hin. }
  destruct (Ha Hasync) as [Hvalue Href]. destruct (Hp Hpaging) as [Hvalue' Href'].
  split; [exact Hvalue|]. split; [exact Hvalue'|].
  split; [apply Href|]. split; [apply Href'|].
  apply allocate_fresh. exists s. apply lookup_insert_eq.
Defined.

(** ** The paging reducer: RESET *)

(** C7.  RESET returns the reducer's default state whatever the prior state
    holds: the state an undefined state starts from, in which every property
    is the one of [initialState] when it has it and the one of the default
    paging state otherwise. *)
Theorem paging_reset_returns_default (p : string) (init : option (gmap string value))
    (s : gmap string value) (a : action) :
  type a = ActionTypeMaker.RESET p →
  ∃ d : gmap string value,
    createAsyncPagingReducer p init (Some s) a = Return d
    ∧ createAsyncPagingReducer p init None a = Return d
    ∧ ∀ k, d !! k = match default defaultAsyncPagingState init !! k with
                    | Some v => Some v
                    | None => defaultAsyncPagingState !! k
                    end.
Proof.
  intros Htype. eexists. rewrite !paging_on_RESET by done.
  split; [reflexivity|]. split; [reflexivity|].
  intros k. unfold paging_defaultState. apply lookup_spread.
Qed.

Lemma paging_reset_returns_default_witness :
  ∃ d : gmap string value,
    createAsyncPagingReducer "FETCH_CARTS" (Some (<["limit" := VNum 20]> ∅))
      (Some (<["data" := VArr [VObj ∅]]> (<["offset" := VNum 1]> (<["page" := VNum 3]> ∅))))
      (Action "FETCH_CARTS_RESET" VUndefined None) = Return d
    ∧ d !! "page" = None
    ∧ d !! "limit" = Some (VNum 20)
    ∧ d !! "data" = Some (VArr []).
Proof.
  destruct (paging_reset_returns_default "FETCH_CARTS" (Some (<["limit" := VNum 20]> ∅))
              (<["data" := VArr [VObj ∅]]> (<["offset" := VNum 1]> (<["page" := VNum 3]> ∅)))
              (Action "FETCH_CARTS_RESET" VUndefined None))
    as (d & Hd & _ & Hk); [reflexivity|].
  exists d. split; [exact Hd|]. rewrite !Hk. vm_compute. repeat split.
Defined.

(** ** createReducerBatch *)

Lemma lookup_createReducerBatch (init : gmap string (string * value)) (key : string) :
  createReducerBatch init !! key
  = (λ option : string * value, λ (state : value) (action : action),
       let state := default_param state (JS.or option.2 VNull) in
       if decide (type action = option.1) then payload action else state)
    <$> init !! key.
Proof.
  unfold createReducerBatch.
  apply (map_fold_weak_ind (λ r (m : gmap string (string * value)), r !! key = _ <$> m !! key)).
  - by rewrite !lookup_empty.
  - intros i x m r Hi IH. destruct (decide (i = key)) as [->|Hne].
    + by rewrite !lookup_insert_eq.
    + by rewrite !lookup_insert_ne.
Qed.

(** C10.  An entry configured with a falsy initial state ([false], [0], the
    empty string, ...) yields a reducer whose state, when it is called with
    [undefined] and an action of another type, is [null] and so, unless
    [null] was configured, not the configured value: that value went through
    [option[1] || null]. *)
Theorem batch_falsy_initial_state_is_null (init : gmap string (string * value))
    (key actionType : string) (v : value) :
  init !! key = Some (actionType, v) →
  JS.truthy v = false →
  ∃ reducer : value → action → value,
    createReducerBatch init !! key = Some reducer
    ∧ ∀ a, type a ≠ actionType →
           reducer VUndefined a = VNull ∧ (v ≠ VNull → reducer VUndefined a ≠ v).
Proof.
  intros Hkey Hfalsy. rewrite lookup_createReducerBatch, Hkey. simpl.
  eexists. split; [reflexivity|].
  intros a Hne. simpl. unfold JS.or. rewrite Hfalsy.
  case_decide; [done|]. split; [reflexivity | congruence].
Qed.

Lemma batch_falsy_initial_state_is_null_witness :
  ∃ reducer : value → action → value,
    createReducerBatch (<["mute" := ("SET_MUTE", VBool false)]>
                          (<["count" := ("SET_COUNT", VNum 0)]> ∅)) !! "mute"
    = Some reducer
    ∧ reducer VUndefined (Action "@@INIT" VUndefined None) = VNull
    ∧ reducer VUndefined (Action "@@INIT" VUndefined None) ≠ VBool false.
Proof.
  destruct (batch_falsy_initial_state_is_null
              (<["mute" := ("SET_MUTE", VBool false)]>
                 (<["count" := ("SET_COUNT", VNum 0)]> ∅))
              "mute" "SET_MUTE" (VBool false))
    as (r & Hr & Hnull); [reflexivity | reflexivity |].
  exists r. split; [exact Hr|].
  destruct (Hnull (Action "@@INIT" VUndefined None)) as [H1 H2]; [discriminate|].
  split; [exact H1 | apply H2; discriminate].
Defined.

(** ** The simple reducer: keyed records *)

Lemma truthy_get_None (o : gmap string value) (k : string) :
  o !! k = None → JS.truthy (JS.get o k) = false.
Proof. intros H. unfold JS.get. by rewrite H. Qed.

Lemma reads_builtin_not_inherited (o : gmap string value) (k : string) :
  JS.inherited k = false → JS.reads_builtin o k = false.
Proof. intros H. unfold JS.reads_builtin. by rewrite H. Qed.

Lemma reads_builtin_own (o : gmap string value) (k : string) (v : value) :
  o !! k = Some v → JS.reads_builtin o k = false.
Proof.
  intros H. unfold JS.reads_builtin. rewrite bool_decide_eq_false_2 by congruence.
  apply andb_false_r.
Qed.

Lemma reads_builtin_inherited (o : gmap string value) (k : string) :
  JS.inherited k = true → o !! k = None → JS.reads_builtin o k = true.
Proof.
  intros H Hk. unfold JS.reads_builtin. rewrite H.
  by rewrite bool_decide_eq_true_2.
Qed.

(** With no record under a key that names no member of [Object.prototype],
    the keyed branch stores the fresh record and touches nothing else. *)
Lemma with_entity_fresh (k : string) (existing : gmap string value → gmap string value)
    (fresh s : gmap string value) :
  JS.inherited k = false →
  no_entity s k →
  ∃ entities : gmap string value,
    with_entity k existing fresh s
    = Return (<["dataEntity" := VObj (<[k := VObj fresh]> entities)]> s)
    ∧ entities !! k = None
    ∧ (s !! "dataEntity" = None ∧ entities = ∅
       ∨ s !! "dataEntity" = Some (VObj entities)).
Proof.
  intros Hown [Hnone | (entities & Hsome & Hk)]; unfold with_entity.
  - exists ∅. rewrite truthy_get_None by done.
    rewrite reads_builtin_not_inherited by done.
    rewrite truthy_get_None by apply lookup_empty.
    split; [reflexivity|]. split; [apply lookup_empty|]. by left.
  - exists entities. unfold JS.get at 1 2. rewrite Hsome. simpl.
    rewrite reads_builtin_not_inherited by done.
    rewrite truthy_get_None by done.
    split; [reflexivity|]. split; [done|]. by right.
Qed.

(** With no own record under a key that names a member of
    [Object.prototype], the keyed branch reads that member, assigns to it,
    and stores nothing: [dataEntity] keeps the records it had, and is the
    empty object when it had to be created. *)
Lemma with_entity_builtin (k : string) (existing : gmap string value → gmap string value)
    (fresh s : gmap string value) :
  JS.inherited k = true →
  no_entity s k →
  ∃ entities : gmap string value,
    with_entity k existing fresh s = Return (<["dataEntity" := VObj entities]> s)
    ∧ entities !! k = None
    ∧ (s !! "dataEntity" = None ∧ entities = ∅
       ∨ s !! "dataEntity" = Some (VObj entities)).
Proof.
  intros Hin [Hnone | (entities & Hsome & Hk)]; unfold with_entity.
  - exists ∅. rewrite truthy_get_None by done.
    rewrite reads_builtin_inherited by (done || apply lookup_empty).
    split; [reflexivity|]. split; [apply lookup_empty|]. by left.
  - exists entities. unfold JS.get at 1 2. rewrite Hsome. simpl.
    rewrite reads_builtin_inherited by done.
    split; [reflexivity|]. split; [done|]. by right.
Qed.

(** X27.  FAIL creating a record.  With a non-empty key that names no member
    of [Object.prototype], and under which the state has no record (there may
    be no [dataEntity] at all), FAIL stores a new record under that key: its
    [error] is the payload, its [pending] is [true], and every other property
    is the one of the reducer's default state.  The records under other keys
    stay as they were. *)
Theorem async_fail_fresh_entity_pending (p : string) (init : option (gmap string value))
    (s : gmap string value) (a : action) (k : string) :
  type a = ActionTypeMaker.FAIL p →
  truthy_key a = Some k →
  JS.inherited k = false →
  no_entity s k →
  ∃ s' entities' entry : gmap string value,
    createAsyncReducer p init (Some s) a = Return s'
    ∧ s' !! "dataEntity" = Some (VObj entities')
    ∧ entities' !! k = Some (VObj entry)
    ∧ entry !! "error" = Some (payload a)
    ∧ entry !! "pending" = Some (VBool true)
    ∧ (∀ f, f ≠ "error" → f ≠ "pending" → entry !! f = async_defaultState init !! f)
    ∧ (∀ k' entities, k' ≠ k → s !! "dataEntity" = Some (VObj entities) →
         entities' !! k' = entities !! k').
Proof.
  intros Htype Hkey Hown Hno. rewrite async_on_FAIL by done.
  unfold async_fail. rewrite Hkey. simpl.
  destruct (with_entity_fresh k
              (λ data, <["pending" := VBool false]> (<["error" := payload a]> data))
              (<["pending" := VBool true]> (<["error" := payload a]> (async_defaultState init)))
              s Hown Hno) as (entities & -> & Hk & Hent).
  eexists _, _, _. split; [reflexivity|].
  split; [apply lookup_insert_eq|]. split; [apply lookup_insert_eq|].
  split; [by simplify_map_eq|]. split; [by simplify_map_eq|].
  split.
  - intros f ? ?. by simplify_map_eq.
  - intros k' entities0 Hne Hs. rewrite lookup_insert_ne by done.
    destruct Hent as [[Hnone _] | Hsome]; congruence.
Qed.

Lemma async_fail_fresh_entity_pending_witness :
  ∃ s' entities' entry : gmap string value,
    createAsyncReducer "FETCH_USER" None (Some defaultAsyncState)
      (Action "FETCH_USER_FAIL" (VStr "timeout") (Some "42")) = Return s'
    ∧ s' !! "dataEntity" = Some (VObj entities')
    ∧ entities' !! "42" = Some (VObj entry)
    ∧ entry !! "error" = Some (VStr "timeout")
    ∧ entry !! "pending" = Some (VBool true).
Proof.
  destruct (async_fail_fresh_entity_pending "FETCH_USER" None defaultAsyncState
              (Action "FETCH_USER_FAIL" (VStr "timeout") (Some "42")) "42")
    as (s' & entities' & entry & Hs & Hde & Hk & Herr & Hpend & _).
  - reflexivity.
  - reflexivity.
  - reflexivity.
  - left. vm_compute. reflexivity.
  - exists s', entities', entry. repeat split; assumption.
Defined.

(** C4.  A key that names a member of [Object.prototype] gets no record.
    The default state has no entry under ['constructor'], yet
    [dataEntity['constructor']] reads the inherited constructor, which is
    truthy: FAIL takes the branch of an existing record, assigns [error] and
    [pending] to that function, and returns a state whose [dataEntity] is
    empty, with no entry under the key and the failure recorded nowhere in
    it. *)
Theorem async_fail_inherited_key_creates_no_entry :
  let a := Action "FETCH_USER_FAIL" (VStr "timeout") (Some "constructor") in
  truthy_key a = Some "constructor"
  ∧ no_entity defaultAsyncState "constructor"
  ∧ createAsyncReducer "FETCH_USER" None (Some defaultAsyncState) a
    = Return (<["dataEntity" := VObj ∅]> defaultAsyncState)
  ∧ entities_of (<["dataEntity" := VObj ∅]> defaultAsyncState) !! "constructor" = None.
Proof.
  intros a. split; [reflexivity|]. split; [left; vm_compute; reflexivity|].
  split; vm_compute; reflexivity.
Qed.

(** ** The simple reducer: RESET *)

(** RESET without a key clears the three top-level fields and nothing
    else. *)
Lemma async_reset_top (p : string) (init : option (gmap string value))
    (s : gmap string value) (a : action) :
  type a = ActionTypeMaker.RESET p →
  truthy_key a = None →
  ∃ s' : gmap string value,
    createAsyncReducer p init (Some s) a = Return s'
    ∧ s' !! "data" = Some VNull
    ∧ s' !! "error" = Some VNull
    ∧ s' !! "pending" = Some (VBool false)
    ∧ ∀ k, k ≠ "data" → k ≠ "error" → k ≠ "pending" → s' !! k = s !! k.
Proof.
  intros Htype Hkey. rewrite async_on_RESET by done.
  unfold async_reset. rewrite Hkey. eexists. split; [reflexivity|].
  repeat split; try by simplify_map_eq.
  intros k ? ? ?. by simplify_map_eq.
Qed.

(** RESET with the key ['*'] removes [dataEntity] as a whole. *)
Lemma async_reset_star (p : string) (init : option (gmap string value))
    (s : gmap string value) (a : action) :
  type a = ActionTypeMaker.RESET p →
  truthy_key a = Some "*" →
  createAsyncReducer p init (Some s) a = Return (delete "dataEntity" s).
Proof.
  intros Htype Hkey. rewrite async_on_RESET by done.
  unfold async_reset. rewrite Hkey. reflexivity.
Qed.

Lemma split_dots_plain (k : string) :
  Lodash.has_char "."%char k = false → Lodash.split_dots k = [k].
Proof.
  induction k as [|c k IH]; intros Hdot; [reflexivity|].
  cbn [Lodash.split_dots].
  change (Lodash.has_char "." (String c k))
    with (Ascii.eqb "." c || Lodash.has_char "." k) in Hdot.
  apply orb_false_iff in Hdot as [Hc Hk].
  rewrite Ascii.eqb_sym, Hc. by rewrite IH.
Qed.

Lemma castPath_dataEntity_key (k : string) (s : gmap string value) :
  plain_key k = true →
  s !! String.append "dataEntity." k = None →
  Lodash.castPath (String.append "dataEntity." k) s = Return ["dataEntity"; k].
Proof.
  unfold plain_key. intros Hplain Hlit.
  apply negb_true_iff in Hplain.
  apply orb_false_iff in Hplain as [Hplain Hclose].
  apply orb_false_iff in Hplain as [Hdot Hopen].
  unfold Lodash.castPath, Lodash.isKey.
  replace (Lodash.isPlainProp (String.append "dataEntity." k)) with false by reflexivity.
  replace (Lodash.has_char "." (String.append "dataEntity." k)) with true by reflexivity.
  rewrite Hlit. simpl mbind.
  unfold Lodash.stringToPath.
  replace (Lodash.has_char "[" (String.append "dataEntity." k))
    with (Lodash.has_char "[" k) by reflexivity.
  replace (Lodash.has_char "]" (String.append "dataEntity." k))
    with (Lodash.has_char "]" k) by reflexivity.
  rewrite Hopen, Hclose. simpl. by rewrite split_dots_plain.
Qed.

(** RESET with a key free of path syntax removes the record under that key
    and leaves every other record and every top-level field alone. *)
Lemma async_reset_plain_key (p : string) (init : option (gmap string value))
    (s entities : gmap string value) (a : action) (k : string) :
  type a = ActionTypeMaker.RESET p →
  truthy_key a = Some k →
  k ≠ "*" →
  plain_key k = true →
  s !! String.append "dataEntity." k = None →
  s !! "dataEntity" = Some (VObj entities) →
  createAsyncReducer p init (Some s) a
  = Return (<["dataEntity" := VObj (delete k entities)]> s).
Proof.
  intros Htype Hkey Hstar Hplain Hlit Hde. rewrite async_on_RESET by done.
  unfold async_reset. rewrite Hkey. rewrite decide_False by done.
  unfold Lodash.unset. rewrite castPath_dataEntity_key by done.
  simpl. by rewrite Hde.
Qed.

(** C6.  A key that contains a dot is read by [_.unset] as a path.  In a
    state holding a record under ["user.data"] and one under ["user"], RESET
    with the key ["user.data"] keeps the record under ["user.data"] and
    deletes the [data] field of the record under ["user"]. *)
Theorem async_reset_dotted_key_misses_entry :
  let record (n : Z) : gmap string value :=
    <["data" := VNum n]> (<["pending" := VBool false]> (<["error" := VNull]> ∅)) in
  let s : gmap string value :=
    <["dataEntity" := VObj (<["user.data" := VObj (record 1)]>
                              (<["user" := VObj (record 2)]> ∅))]> defaultAsyncState in
  createAsyncReducer "FETCH_USER" None (Some s)
    (Action "FETCH_USER_RESET" VUndefined (Some "user.data"))
  = Return (<["dataEntity" := VObj (<["user.data" := VObj (record 1)]>
                                      (<["user" := VObj (delete "data" (record 2))]> ∅))]>
              defaultAsyncState).
Proof. intros record s. vm_compute. reflexivity. Qed.

(** ** Arrays and identity of items *)

Lemma strict_eq_primitive (a b : value) :
  JS.is_reference a = false →
  JS.strict_eq a b = Return true ∧ a = b ∨ JS.strict_eq a b = Return false ∧ a ≠ b.
Proof.
  intros Ha. destruct a, b; try discriminate Ha; simpl;
    try (right; split; [reflexivity | discriminate]);
    try (left; split; reflexivity).
  - destruct (decide (b = b0)) as [->|Hne].
    + left. by rewrite bool_decide_eq_true_2.
    + right. rewrite bool_decide_eq_false_2 by done. split; congruence.
  - destruct (Z.eqb_spec n n0) as [->|Hne]; [left | right]; split; congruence.
  - destruct (decide (s = s0)) as [->|Hne].
    + left. by rewrite bool_decide_eq_true_2.
    + right. rewrite bool_decide_eq_false_2 by done. split; congruence.
Qed.

(** The callback [e => e.id === v] on an item. *)
Lemma id_callback_item (v x : value) :
  is_item x →
  (x' ← JS.member x "id"; JS.strict_eq x' v) = Return true ∧ has_id v x
  ∨ (x' ← JS.member x "id"; JS.strict_eq x' v) = Return false ∧ ¬ has_id v x.
Proof.
  intros (o & -> & Hprim). simpl.
  destruct (strict_eq_primitive (JS.get o "id") v Hprim) as [[-> Heq] | [-> Hne]].
  - left. split; [reflexivity|]. by exists o.
  - right. split; [reflexivity|]. intros (o' & [= <-] & Hid). contradiction.
Qed.

Lemma findIndex_from_first (callback : value → outcome bool)
    (before : list value) (x : value) (after : list value) (i : Z) :
  Forall (λ y, callback y = Return false) before →
  callback x = Return true →
  JS.findIndex_from callback (before ++ x :: after) i
  = Return (i + Z.of_nat (length before)).
Proof.
  intros Hbefore Hx. revert i.
  induction Hbefore as [|y before Hy _ IH]; intros i; simpl.
  - rewrite Hx. simpl. f_equal. lia.
  - rewrite Hy. simpl. rewrite IH. f_equal. lia.
Qed.

Lemma findIndex_from_none (callback : value → outcome bool) (l : list value) (i : Z) :
  Forall (λ y, callback y = Return false) l →
  JS.findIndex_from callback l i = Return (-1).
Proof.
  intros Hl. revert i. induction Hl as [|y l Hy _ IH]; intros i; simpl; [done|].
  rewrite Hy. simpl. apply IH.
Qed.

Lemma findIndex_from_returns (callback : value → outcome bool) (l : list value) (i : Z) :
  Forall (λ y, ∃ b, callback y = Return b) l →
  ∃ j, JS.findIndex_from callback l i = Return j.
Proof.
  intros Hl. revert i. induction Hl as [|y l [b Hy] _ IH]; intros i; simpl; [eauto|].
  rewrite Hy. simpl. destruct b; eauto.
Qed.

Lemma get_lookup (o : gmap string value) (k : string) (v : value) :
  o !! k = Some v → JS.get o k = v.
Proof. intros H. unfold JS.get. by rewrite H. Qed.

(** ** The paging reducer: REMOVE *)

(** C8.  On a state whose [data] is an array of items and whose [offset] is
    a number, REMOVE with the id [v] deletes the first item whose [id] is
    [v] and subtracts one from [offset] (for an offset and a difference that
    are safe integers, where the subtraction of doubles is exact), keeping
    every other property; when no item has the id [v] the state is returned
    as it is. *)
Theorem paging_remove_first_match (p : string) (init : option (gmap string value))
    (s : gmap string value) (a : action) (items : list value) (n : Z) :
  type a = ActionTypeMaker.REMOVE p →
  s !! "data" = Some (VArr items) →
  Forall is_item items →
  s !! "offset" = Some (VNum n) →
  (∀ before x after,
     items = before ++ x :: after →
     Forall (λ y, ¬ has_id (payload a) y) before →
     has_id (payload a) x →
     ∃ s' : gmap string value,
       createAsyncPagingReducer p init (Some s) a = Return s'
       ∧ s' !! "data" = Some (VArr (before ++ after))
       ∧ (JS.safe_integer n → JS.safe_integer (n - 1) →
          s' !! "offset" = Some (VNum (n - 1)))
       ∧ ∀ k, k ≠ "data" → k ≠ "offset" → s' !! k = s !! k)
  ∧ (Forall (λ y, ¬ has_id (payload a) y) items →
     createAsyncPagingReducer p init (Some s) a = Return s).
Proof.
  intros Htype Hdata Hitems Hoffset.
  rewrite paging_on_REMOVE by done. simpl default.
  unfold paging_remove, draft_data. rewrite (get_lookup _ _ _ Hdata). simpl mbind.
  unfold JS.findIndex. split.
  - intros before x after -> Hbefore Hx.
    apply Forall_app in Hitems as [Hib Hia]. apply Forall_cons in Hia as [Hix _].
    rewrite (findIndex_from_first _ before x after).
    + simpl mbind. replace (0 <=? 0 + Z.of_nat (length before)) with true
        by (symmetry; apply Z.leb_le; lia).
      unfold JS.get. rewrite lookup_insert_ne by done. rewrite Hoffset. simpl.
      eexists. split; [reflexivity|].
      unfold JS.splice1. rewrite Z.add_0_l, Nat2Z.id, delete_middle.
      split; [by simplify_map_eq|]. split; [intros _ _; by simplify_map_eq|].
      intros k ? ?. by simplify_map_eq.
    + apply Forall_forall. intros y Hy.
      destruct (id_callback_item (payload a) y) as [[_ Hhas] | [Hcb _]]; [| |done].
      * eapply Forall_forall in Hib; eauto.
      * eapply Forall_forall in Hbefore; eauto. contradiction.
    + destruct (id_callback_item (payload a) x Hix) as [[Hcb _] | [_ Hnot]];
        [done | contradiction].
  - intros Hnone. rewrite findIndex_from_none; [reflexivity|].
    apply Forall_forall. intros y Hy.
    destruct (id_callback_item (payload a) y) as [[_ Hhas] | [Hcb _]]; [| |done].
    + eapply Forall_forall in Hitems; eauto.
    + eapply Forall_forall in Hnone; eauto. contradiction.
Qed.

Lemma paging_remove_first_match_witness :
  let item (n : Z) : value := VObj (<["id" := VNum n]> ∅) in
  let s : gmap string value :=
    <["data" := VArr [item 1; item 2]]> (<["offset" := VNum 2]> defaultAsyncPagingState) in
  (∃ s' : gmap string value,
     createAsyncPagingReducer "FETCH_CARTS" None (Some s)
       (Action "FETCH_CARTS_REMOVE" (VNum 1) None) = Return s'
     ∧ s' !! "data" = Some (VArr [item 2])
     ∧ s' !! "offset" = Some (VNum 1))
  ∧ createAsyncPagingReducer "FETCH_CARTS" None (Some s)
      (Action "FETCH_CARTS_REMOVE" (VNum 7) None) = Return s.
Proof.
  intros item s.
  assert (Hitem : ∀ n, is_item (item n)).
  { intros n. eexists. split; [reflexivity|]. vm_compute. reflexivity. }
  assert (Hid : ∀ n m, has_id (VNum m) (item n) → n = m).
  { intros n m (o & [= <-] & Hget). vm_compute in Hget. congruence. }
  split.
  - destruct (paging_remove_first_match "FETCH_CARTS" None s
                (Action "FETCH_CARTS_REMOVE" (VNum 1) None) [item 1; item 2] 2)
      as [Hfirst _].
    + reflexivity.
    + vm_compute. reflexivity.
    + repeat constructor; apply Hitem.
    + vm_compute. reflexivity.
    + destruct (Hfirst [] (item 1) [item 2]) as (s' & Hs & Hdata & Hoffset & _).
      * reflexivity.
      * constructor.
      * eexists. split; [reflexivity|]. vm_compute. reflexivity.
      * exists s'. split; [exact Hs|]. split; [exact Hdata|].
        apply Hoffset; safe_integer_holds.
  - destruct (paging_remove_first_match "FETCH_CARTS" None s
                (Action "FETCH_CARTS_REMOVE" (VNum 7) None) [item 1; item 2] 2)
      as [_ Hnone].
    + reflexivity.
    + vm_compute. reflexivity.
    + repeat constructor; apply Hitem.
    + vm_compute. reflexivity.
    + apply Hnone. repeat constructor; intros H%Hid; discriminate H.
Defined.

(** ** The paging reducer: SUCCESS *)

(** C2, as the code has it.  SUCCESS with an object payload, where a [data]
    that is not an array counts as no items.
    - When [firstOffset] is truthy, on every state: [data] becomes the
      payload's item list and [offset] the item count.
    - When [firstOffset] is falsy, on a state whose [data] is an array and
      whose [offset] is a number: [data] becomes the prior list followed by
      the payload's items, and [offset] the prior offset plus the item
      count (for a prior offset and a sum that are safe integers, where the
      addition of doubles is exact).
    - In both cases [pending] is [false], [hasMore] tells whether the item
      count is positive, [error] is [null], and every payload property other
      than [data], [firstOffset] and [pending] is the state's property of
      that name: the payload's own [offset], [hasMore] or [error], when it
      carries one, replaces the value just described.  Properties named by
      neither side keep their prior value. *)
Theorem paging_success_merges (p : string) (init : option (gmap string value))
    (s : gmap string value) (a : action) (props : gmap string value) :
  type a = ActionTypeMaker.SUCCESS p →
  payload a = VObj props →
  let newData := match JS.get props "data" with VArr l => l | _ => [] end in
  let count := Z.of_nat (length newData) in
  let first := JS.truthy (JS.get props "firstOffset") in
  let rest := delete "firstOffset" (delete "data" props) in
  (first = false →
   ∃ (old : list value) (n : Z),
     s !! "data" = Some (VArr old) ∧ s !! "offset" = Some (VNum n)) →
  ∃ s' : gmap string value,
    createAsyncPagingReducer p init (Some s) a = Return s'
    ∧ s' !! "pending" = Some (VBool false)
    ∧ (first = true → s' !! "data" = Some (VArr newData))
    ∧ (first = false → ∀ old, s !! "data" = Some (VArr old) →
       s' !! "data" = Some (VArr (old ++ newData)))
    ∧ (∀ k v, k ≠ "pending" → rest !! k = Some v → s' !! k = Some v)
    ∧ (rest !! "offset" = None → first = true → s' !! "offset" = Some (VNum count))
    ∧ (rest !! "offset" = None → first = false →
       ∀ n, s !! "offset" = Some (VNum n) →
            JS.safe_integer n → JS.safe_integer (n + count) →
            s' !! "offset" = Some (VNum (n + count)))
    ∧ (rest !! "hasMore" = None → s' !! "hasMore" = Some (VBool (0 <? count)))
    ∧ (rest !! "error" = None → s' !! "error" = Some VNull)
    ∧ (∀ k, rest !! k = None →
            k ∉ ["data"; "offset"; "hasMore"; "error"; "pending"] →
            s' !! k = s !! k).
Proof.
  intros Htype Hpayload newData count first rest Hshape.
  rewrite paging_on_SUCCESS by done. simpl default.
  unfold paging_success, draft_data. rewrite Hpayload. simpl mbind. simpl JS.own_props.
  fold newData. fold rest. fold first.
  assert (Hrest_data : rest !! "data" = None).
  { unfold rest. rewrite lookup_delete_ne by done. apply lookup_delete_eq. }
  destruct first; simpl mbind.
  - eexists. split; [reflexivity|].
    split; [by simplify_map_eq|].
    split; [intros _; rewrite lookup_insert_ne, lookup_assign_all, Hrest_data by done;
            by simplify_map_eq|].
    split; [discriminate|].
    split; [intros k v ? Hk; rewrite lookup_insert_ne, lookup_assign_all, Hk by done;
            reflexivity|].
    split; [intros Hk _; rewrite lookup_insert_ne, lookup_assign_all, Hk by done;
            by simplify_map_eq|].
    split; [discriminate|].
    split; [intros Hk; rewrite lookup_insert_ne, lookup_assign_all, Hk by done;
            by simplify_map_eq|].
    split; [intros Hk; rewrite lookup_insert_ne, lookup_assign_all, Hk by done;
            by simplify_map_eq|].
    intros k Hk Hnot. rewrite lookup_insert_ne by set_solver.
    rewrite lookup_assign_all, Hk.
    rewrite !lookup_insert_ne by set_solver. reflexivity.
  - destruct (Hshape eq_refl) as (old & n & Hdata & Hoffset).
    rewrite (get_lookup _ _ _ Hdata). simpl mbind.
    unfold JS.get at 1. rewrite lookup_insert_ne by done. rewrite Hoffset. simpl.
    eexists. split; [reflexivity|].
    split; [by simplify_map_eq|].
    split; [discriminate|].
    split; [intros _ old' Hold;
            rewrite lookup_insert_ne, lookup_assign_all, Hrest_data by done;
            rewrite Hdata in Hold; injection Hold as <-; by simplify_map_eq|].
    split; [intros k v ? Hk; rewrite lookup_insert_ne, lookup_assign_all, Hk by done;
            reflexivity|].
    split; [discriminate|].
    split; [intros Hk _ n' Hn' _ _;
            rewrite lookup_insert_ne, lookup_assign_all, Hk by done;
            injection Hn' as <-; by simplify_map_eq|].
    split; [intros Hk; rewrite lookup_insert_ne, lookup_assign_all, Hk by done;
            by simplify_map_eq|].
    split; [intros Hk; rewrite lookup_insert_ne, lookup_assign_all, Hk by done;
            by simplify_map_eq|].
    intros k Hk Hnot. rewrite lookup_insert_ne by set_solver.
    rewrite lookup_assign_all, Hk.
    rewrite !lookup_insert_ne by set_solver. reflexivity.
Qed.

Lemma paging_success_merges_witness :
  let item (n : Z) : value := VObj (<["id" := VNum n]> ∅) in
  let s : gmap string value :=
    <["data" := VArr [item 1; item 2]]> (<["offset" := VNum 2]> defaultAsyncPagingState) in
  (∃ s' : gmap string value,
     createAsyncPagingReducer "FETCH_CARTS" None (Some s)
       (Action "FETCH_CARTS_SUCCESS"
          (VObj (<["data" := VArr [item 3]]> (<["firstOffset" := VBool false]> ∅))) None)
     = Return s'
     ∧ s' !! "data" = Some (VArr [item 1; item 2; item 3])
     ∧ s' !! "offset" = Some (VNum 3)
     ∧ s' !! "hasMore" = Some (VBool true))
  ∧ (∃ s' : gmap string value,
       createAsyncPagingReducer "FETCH_CARTS" None (Some (∅ : gmap string value))
         (Action "FETCH_CARTS_SUCCESS"
            (VObj (<["data" := VArr [item 3]]> (<["firstOffset" := VBool true]> ∅))) None)
       = Return s'
       ∧ s' !! "data" = Some (VArr [item 3])
       ∧ s' !! "offset" = Some (VNum 1)).
Proof.
  intros item s. split.
  - destruct (paging_success_merges "FETCH_CARTS" None s
                (Action "FETCH_CARTS_SUCCESS"
                   (VObj (<["data" := VArr [item 3]]> (<["firstOffset" := VBool false]> ∅)))
                   None)
                (<["data" := VArr [item 3]]> (<["firstOffset" := VBool false]> ∅)))
      as (s' & Hs & _ & _ & Hdata & _ & _ & Hoffset & Hmore & _).
    + reflexivity.
    + reflexivity.
    + intros _. exists [item 1; item 2], 2. split; vm_compute; reflexivity.
    + exists s'. split; [exact Hs|].
      split; [apply (Hdata eq_refl [item 1; item 2]); vm_compute; reflexivity|].
      split.
      * apply (Hoffset eq_refl eq_refl 2);
          [vm_compute; reflexivity | safe_integer_holds ..].
      * rewrite Hmore; vm_compute; reflexivity.
  - destruct (paging_success_merges "FETCH_CARTS" None ∅
                (Action "FETCH_CARTS_SUCCESS"
                   (VObj (<["data" := VArr [item 3]]> (<["firstOffset" := VBool true]> ∅)))
                   None)
                (<["data" := VArr [item 3]]> (<["firstOffset" := VBool true]> ∅)))
      as (s' & Hs & _ & Hdata & _ & _ & Hoffset & _).
    + reflexivity.
    + reflexivity.
    + intros Hfirst. vm_compute in Hfirst. discriminate Hfirst.
    + exists s'. split; [exact Hs|].
      split; [apply (Hdata eq_refl) | apply (Hoffset eq_refl eq_refl)].
Defined.

(** C2 as it is worded fails where the payload itself carries [offset] or
    [error]: with one item and [firstOffset] set, the wording asks for
    [offset = 1] and [error = null], and the merge of the remaining payload
    fields, which runs after both assignments, leaves the payload's values
    instead. *)
Lemma paging_success_payload_overrides :
  let item : value := VObj (<["id" := VNum 1]> ∅) in
  let payload : gmap string value :=
    <["data" := VArr [item]]> (<["firstOffset" := VBool true]>
      (<["offset" := VNum 10]> (<["error" := VStr "stale"]> ∅))) in
  ∃ s' : gmap string value,
    createAsyncPagingReducer "FETCH_CARTS" None (Some defaultAsyncPagingState)
      (Action "FETCH_CARTS_SUCCESS" (VObj payload) None) = Return s'
    ∧ s' !! "data" = Some (VArr [item])
    ∧ s' !! "offset" = Some (VNum 10)
    ∧ s' !! "error" = Some (VStr "stale")
    ∧ ¬ (s' !! "offset" = Some (VNum 1) ∧ s' !! "error" = Some VNull).
Proof.
  intros item payload.
  exists (<["data" := VArr [item]]> (<["offset" := VNum 10]>
            (<["error" := VStr "stale"]> (<["hasMore" := VBool true]>
               (<["pending" := VBool false]> ∅))))).
  split; [vm_compute; reflexivity|].
  split; [vm_compute; reflexivity|].
  split; [vm_compute; reflexivity|].
  split; [vm_compute; reflexivity|].
  intros [Hoffset _]. vm_compute in Hoffset. discriminate Hoffset.
Qed.

(** ** Exceptions *)

Lemma member_present (v : value) (k : string) :
  absent v = false → ∃ x, JS.member v k = Return x.
Proof.
  destruct v; simpl; try discriminate; intros _; try case_bool_decide; eauto.
Qed.

Lemma member_absent (v : value) (k : string) :
  absent v = true → JS.member v k = Throw.
Proof. by destruct v. Qed.

Lemma with_entity_typed (k : string) (existing : gmap string value → gmap string value)
    (fresh s : gmap string value) :
  async_typed s → ∃ s', with_entity k existing fresh s = Return s'.
Proof.
  intros [Hnone | (entities & Hsome & Hrec)]; unfold with_entity.
  - rewrite truthy_get_None by done.
    destruct (JS.reads_builtin ∅ k); [eauto|].
    rewrite truthy_get_None by apply lookup_empty. eauto.
  - unfold JS.get at 1 2. rewrite Hsome. simpl.
    destruct (JS.reads_builtin entities k); [eauto|].
    destruct (entities !! k) as [v|] eqn:Hk.
    + destruct (Hrec k v Hk) as [o ->]. rewrite (get_lookup _ _ _ Hk). simpl. eauto.
    + rewrite truthy_get_None by done. eauto.
Qed.

Lemma unset_dataEntity_key_typed (k : string) (s : gmap string value) :
  plain_key k = true →
  async_typed s →
  ∃ s', Lodash.unset s (String.append "dataEntity." k) = Return s'.
Proof.
  intros Hplain Htyped. unfold Lodash.unset.
  destruct (s !! String.append "dataEntity." k) as [v|] eqn:Hlit.
  - unfold Lodash.castPath, Lodash.isKey.
    replace (Lodash.isPlainProp (String.append "dataEntity." k)) with false by reflexivity.
    replace (Lodash.has_char "." (String.append "dataEntity." k)) with true by reflexivity.
    rewrite Hlit. simpl. eauto.
  - rewrite castPath_dataEntity_key by done. simpl.
    destruct Htyped as [-> | (entities & -> & _)]; eauto.
Qed.

Lemma id_callback_returns (v x : value) :
  is_item x → ∃ b, (x' ← JS.member x "id"; JS.strict_eq x' v) = Return b.
Proof. intros Hx. destruct (id_callback_item v x Hx) as [[-> _] | [-> _]]; eauto. Qed.

Lemma findIndex_id_returns (v : value) (items : list value) :
  Forall is_item items →
  ∃ j, JS.findIndex (λ e, x ← JS.member e "id"; JS.strict_eq x v) items = Return j.
Proof.
  intros Hitems. apply findIndex_from_returns.
  eapply Forall_impl; [exact Hitems|]. intros x Hx. by apply id_callback_returns.
Qed.

Ltac split_types H :=
  cbv [async_types paging_types] in H;
  repeat (apply elem_of_cons in H as [H|H]);
  [.. | by apply elem_of_nil in H].

Lemma absent_excluded (a : action) (allowed : list string) (t : string) :
  (absent (payload a) = true → type a ∈ allowed) →
  type a = t →
  t ∉ allowed →
  absent (payload a) = false.
Proof.
  intros Himp Htype Hnot. destruct (absent (payload a)); [|done].
  exfalso. apply Hnot. rewrite <- Htype. by apply Himp.
Qed.

Ltac not_among :=
  let H := fresh in
  intros H; repeat (apply elem_of_cons in H as [H|H]; [distinct_types|]);
  by apply elem_of_nil in H.

(** C9, as the code has it.  On a state of the declared shape, an action of
    a derived type is reduced without an exception: by the simple reducer
    for every payload (for RESET, with no key, the key ['*'] or a key free
    of ['.'], ['['] and [']']); by the paging reducer for every payload on
    ADD_LAST, ADD_FIRST, REMOVE, FAIL and RESET, and for every payload other
    than [undefined] and [null] on PENDING, SUCCESS, UPDATE and REPLACE.
    With an [undefined] or [null] payload the paging reducer throws on
    PENDING, SUCCESS and REPLACE, and on UPDATE when [data] is not empty. *)
Theorem reducers_complete_on_present_payload (p : string)
    (init : option (gmap string value)) (s : gmap string value) (a : action) :
  (async_typed s →
   type a ∈ async_types p →
   (type a = ActionTypeMaker.RESET p →
    ∀ k, truthy_key a = Some k → k = "*" ∨ plain_key k = true) →
   ∃ s', createAsyncReducer p init (Some s) a = Return s')
  ∧ (paging_typed s →
     type a ∈ paging_types p →
     (absent (payload a) = true →
      type a ∈ [ActionTypeMaker.ADD_LAST p; ActionTypeMaker.ADD_FIRST p;
                ActionTypeMaker.REMOVE p; ActionTypeMaker.FAIL p;
                ActionTypeMaker.RESET p]) →
     ∃ s', createAsyncPagingReducer p init (Some s) a = Return s')
  ∧ (absent (payload a) = true →
     type a ∈ [ActionTypeMaker.PENDING p; ActionTypeMaker.SUCCESS p;
               ActionTypeMaker.REPLACE p] →
     createAsyncPagingReducer p init (Some s) a = Throw)
  ∧ (absent (payload a) = true →
     type a = ActionTypeMaker.UPDATE p →
     ∀ x items, s !! "data" = Some (VArr (x :: items)) → is_item x →
     createAsyncPagingReducer p init (Some s) a = Throw).
Proof.
  split; [|split; [|split]].
  - intros Htyped Htype Hreset. split_types Htype.
    + rewrite async_on_PENDING by done. unfold async_pending.
      destruct (truthy_key a); [by apply with_entity_typed | eauto].
    + rewrite async_on_SUCCESS by done. unfold async_success.
      destruct (truthy_key a); [by apply with_entity_typed | eauto].
    + rewrite async_on_FAIL by done. unfold async_fail.
      destruct (truthy_key a); [by apply with_entity_typed | eauto].
    + rewrite async_on_RESET by done. unfold async_reset.
      destruct (truthy_key a) as [k|] eqn:Hk; [|eauto].
      case_decide as Hstar; [by eexists|].
      destruct (Hreset Htype k eq_refl) as [?|Hplain]; [done|].
      by apply unset_dataEntity_key_typed.
  - intros (items & n & Hdata & Hitems & Hoffset) Htype Habsent.
    assert (Hoff : ∀ l, JS.get (<["data" := VArr l]> s) "offset" = VNum n).
    { intros l. apply get_lookup. by rewrite lookup_insert_ne. }
    split_types Htype.
    + rewrite paging_on_PENDING by done. unfold paging_pending.
      destruct (member_present (payload a) "clear") as [clear ->]; [|by eexists].
      eapply absent_excluded; [done.. | not_among].
    + rewrite paging_on_SUCCESS by done. unfold paging_success. simpl default.
      assert (Hpresent : absent (payload a) = false)
        by (eapply absent_excluded; [done.. | not_among]).
      destruct (member_present (payload a) "data" Hpresent) as [data ->].
      destruct (member_present (payload a) "firstOffset" Hpresent) as [first ->].
      simpl mbind. destruct (JS.truthy first); simpl mbind; [by eexists|].
      unfold draft_data. rewrite (get_lookup _ _ _ Hdata). simpl mbind.
      rewrite Hoff. simpl. by eexists.
    + rewrite paging_on_ADD_LAST by done. unfold paging_add_last, draft_data.
      simpl default. rewrite (get_lookup _ _ _ Hdata). simpl mbind.
      rewrite Hoff. simpl. by eexists.
    + rewrite paging_on_ADD_FIRST by done. unfold paging_add_first, draft_data.
      simpl default. rewrite (get_lookup _ _ _ Hdata). simpl mbind.
      rewrite Hoff. simpl. by eexists.
    + rewrite paging_on_UPDATE by done. unfold paging_update, draft_data.
      simpl default. rewrite (get_lookup _ _ _ Hdata). simpl mbind.
      assert (Hpresent : absent (payload a) = false)
        by (eapply absent_excluded; [done.. | not_among]).
      destruct (member_present (payload a) "id" Hpresent) as [y Hy].
      destruct (findIndex_from_returns
                  (λ e, x ← JS.member e "id"; y ← JS.member (payload a) "id";
                        JS.strict_eq x y) items 0) as [j Hj].
      { eapply Forall_impl; [exact Hitems|]. intros x Hx.
        destruct (id_callback_returns y x Hx) as [b Hb]. exists b.
        destruct Hx as (o & -> & _). simpl in *. by rewrite Hy. }
      unfold JS.findIndex. rewrite Hj. simpl. destruct (0 <=? j); by eexists.
    + rewrite paging_on_REPLACE by done. unfold paging_replace, draft_data.
      simpl default.
      assert (Hpresent : absent (payload a) = false)
        by (eapply absent_excluded; [done.. | not_among]).
      destruct (member_present (payload a) "id" Hpresent) as [y ->].
      destruct (member_present (payload a) "data" Hpresent) as [d Hd].
      simpl mbind. rewrite (get_lookup _ _ _ Hdata). simpl mbind.
      destruct (findIndex_id_returns y items Hitems) as [j ->]. simpl mbind.
      destruct (0 <=? j); [|by eexists]. rewrite Hd. simpl mbind.
      destruct (JS.truthy d && _); by eexists.
    + rewrite paging_on_REMOVE by done. unfold paging_remove, draft_data.
      simpl default. rewrite (get_lookup _ _ _ Hdata). simpl mbind.
      destruct (findIndex_id_returns (payload a) items Hitems) as [j ->]. simpl mbind.
      destruct (0 <=? j); [|by eexists]. rewrite Hoff. simpl. by eexists.
    + rewrite paging_on_FAIL by done. by eexists.
    + rewrite paging_on_RESET by done. by eexists.
  - intros Habsent Htype.
    repeat (apply elem_of_cons in Htype as [Htype|Htype]);
      [.. | by apply elem_of_nil in Htype].
    + rewrite paging_on_PENDING by done. unfold paging_pending.
      rewrite (member_absent _ "clear" Habsent). reflexivity.
    + rewrite paging_on_SUCCESS by done. unfold paging_success.
      rewrite (member_absent _ "data" Habsent). reflexivity.
    + rewrite paging_on_REPLACE by done. unfold paging_replace.
      rewrite (member_absent _ "id" Habsent). reflexivity.
  - intros Habsent Htype x items Hdata (o & -> & Hprim).
    rewrite paging_on_UPDATE by done. unfold paging_update, draft_data.
    simpl default. rewrite (get_lookup _ _ _ Hdata). simpl.
    by rewrite (member_absent _ _ Habsent).
Qed.

Lemma reducers_complete_on_present_payload_witness :
  let item : value := VObj (<["id" := VNum 1]> ∅) in
  let s : gmap string value :=
    <["data" := VArr [item]]> (<["offset" := VNum 1]> defaultAsyncPagingState) in
  (∃ s', createAsyncReducer "FETCH_USER" None (Some defaultAsyncState)
           (Action "FETCH_USER_RESET" VUndefined (Some "42")) = Return s')
  ∧ (∃ s', createAsyncPagingReducer "FETCH_CARTS" None (Some s)
             (Action "FETCH_CARTS_PENDING" (VObj ∅) None) = Return s')
  ∧ createAsyncPagingReducer "FETCH_CARTS" None (Some s)
      (Action "FETCH_CARTS_SUCCESS" VUndefined None) = Throw
  ∧ createAsyncPagingReducer "FETCH_CARTS" None (Some s)
      (Action "FETCH_CARTS_UPDATE" VNull None) = Throw.
Proof.
  intros item s.
  assert (Hitem : is_item item).
  { eexists. split; [reflexivity|]. vm_compute. reflexivity. }
  split; [|split; [|split]].
  - pose proof (reducers_complete_on_present_payload "FETCH_USER" None defaultAsyncState
                  (Action "FETCH_USER_RESET" VUndefined (Some "42"))) as (Hsimple & _).
    apply Hsimple.
    + left. vm_compute. reflexivity.
    + do 3 (apply elem_of_cons; right). apply elem_of_cons. left. reflexivity.
    + intros _ k [= <-]. right. vm_compute. reflexivity.
  - pose proof (reducers_complete_on_present_payload "FETCH_CARTS" None s
                  (Action "FETCH_CARTS_PENDING" (VObj ∅) None)) as (_ & Hpaging & _).
    apply Hpaging.
    + exists [item], 1. split; [vm_compute; reflexivity|].
      split; [by repeat constructor | vm_compute; reflexivity].
    + apply elem_of_cons. left. reflexivity.
    + discriminate.
  - pose proof (reducers_complete_on_present_payload "FETCH_CARTS" None s
                  (Action "FETCH_CARTS_SUCCESS" VUndefined None)) as (_ & _ & Hthrow & _).
    apply Hthrow; [reflexivity|].
    apply elem_of_cons. right. apply elem_of_cons. left. reflexivity.
  - pose proof (reducers_complete_on_present_payload "FETCH_CARTS" None s
                  (Action "FETCH_CARTS_UPDATE" VNull None)) as (_ & _ & _ & Hupdate).
    apply (Hupdate eq_refl eq_refl item []); [vm_compute; reflexivity | exact Hitem].
Defined.

(** C9 as it is worded fails on an absent payload: the paging reducer
    destructures [action.payload] on PENDING, and a bare
    [{ type: 'FETCH_CARTS_PENDING' }] dispatched to a fresh store throws. *)
Lemma paging_pending_without_payload_throws :
  createAsyncPagingReducer "FETCH_CARTS" None None
    (Action "FETCH_CARTS_PENDING" VUndefined None) = Throw.
Proof. vm_compute. reflexivity. Qed.

(** * Further properties *)

(** ** The simple reducer *)

Lemma entities_of_typed (s : gmap string value) (k : string) (v : value) :
  async_typed s → entities_of s !! k = Some v → ∃ o, v = VObj o.
Proof.
  unfold entities_of. intros [Hnone | (entities & Hsome & Hrec)].
  - rewrite Hnone, lookup_empty. discriminate.
  - rewrite Hsome. apply Hrec.
Qed.

Lemma records_empty (k : string) (v : value) :
  (∅ : gmap string value) !! k = Some v → ∃ o, v = VObj o.
Proof. by rewrite lookup_empty. Qed.

Lemma records_insert (k : string) (o entities : gmap string value) :
  (∀ k' v, entities !! k' = Some v → ∃ o', v = VObj o') →
  ∀ k' v, <[k := VObj o]> entities !! k' = Some v → ∃ o', v = VObj o'.
Proof.
  intros Hrec k' v. destruct (decide (k = k')) as [->|Hne].
  - rewrite lookup_insert_eq. intros [= <-]. by eexists.
  - rewrite lookup_insert_ne by done. apply Hrec.
Qed.

Lemma entities_of_insert (s entities : gmap string value) :
  entities_of (<["dataEntity" := VObj entities]> s) = entities.
Proof. unfold entities_of. by rewrite lookup_insert_eq. Qed.

(** On a state of the declared shape the keyed branch always completes.
    Where the key reads a member of [Object.prototype] the records stay as
    they are; otherwise the branch rewrites the record under the key when
    there is one and stores the fresh record when there is none.  It is the
    identity on everything else. *)
Lemma with_entity_typed_spec (k : string)
    (existing : gmap string value → gmap string value)
    (fresh s : gmap string value) :
  async_typed s →
  with_entity k existing fresh s
  = Return (<["dataEntity" :=
               VObj (if JS.reads_builtin (entities_of s) k then entities_of s
                     else <[k := VObj (match entities_of s !! k with
                                       | Some (VObj data) => existing data
                                       | _ => fresh
                                       end)]> (entities_of s))]> s).
Proof.
  intros Htyped.
  assert (Hrec : ∀ v, entities_of s !! k = Some v → ∃ o, v = VObj o)
    by (intros v; by apply entities_of_typed).
  unfold with_entity, entities_of in *.
  destruct Htyped as [Hnone | (entities & Hsome & _)].
  - rewrite truthy_get_None by done. rewrite Hnone.
    destruct (JS.reads_builtin ∅ k); [reflexivity|].
    rewrite truthy_get_None by apply lookup_empty. by rewrite lookup_empty.
  - unfold JS.get at 1 2. rewrite Hsome in *. simpl.
    destruct (JS.reads_builtin entities k); [reflexivity|].
    destruct (entities !! k) as [v|] eqn:Hk.
    + destruct (Hrec v eq_refl) as [o ->].
      by rewrite (get_lookup _ _ _ Hk).
    + by rewrite truthy_get_None.
Qed.

(** The same when the key reads no member of [Object.prototype]: it names
    none, or the state has an own record under it. *)
Lemma with_entity_typed_own (k : string)
    (existing : gmap string value → gmap string value)
    (fresh s : gmap string value) :
  async_typed s →
  JS.reads_builtin (entities_of s) k = false →
  with_entity k existing fresh s
  = Return (<["dataEntity" :=
               VObj (<[k := VObj (match entities_of s !! k with
                                  | Some (VObj data) => existing data
                                  | _ => fresh
                                  end)]> (entities_of s))]> s).
Proof. intros Htyped Hown. rewrite with_entity_typed_spec by done. by rewrite Hown. Qed.

Lemma reads_builtin_cases (o : gmap string value) (k : string) :
  JS.reads_builtin o k = true ∧ JS.inherited k = true ∧ o !! k = None
  ∨ JS.reads_builtin o k = false ∧ (JS.inherited k = false ∨ is_Some (o !! k)).
Proof.
  unfold JS.reads_builtin. destruct (JS.inherited k); simpl; [|by right; eauto].
  case_bool_decide as Hk; [by left|]. right. split; [done|]. right.
  by apply not_eq_None_Some.
Qed.

(** X1.  PENDING without a key sets [pending] to [true] and changes no other
    property of the state: [data], [error] and every keyed record stay. *)
Theorem async_pending_keeps_rest (p : string) (init : option (gmap string value))
    (s : gmap string value) (a : action) :
  type a = ActionTypeMaker.PENDING p →
  truthy_key a = None →
  ∃ s' : gmap string value,
    createAsyncReducer p init (Some s) a = Return s'
    ∧ s' !! "pending" = Some (VBool true)
    ∧ ∀ k, k ≠ "pending" → s' !! k = s !! k.
Proof.
  intros Htype Hkey. rewrite async_on_PENDING by done.
  unfold async_pending. rewrite Hkey. eexists. split; [reflexivity|].
  split; [apply lookup_insert_eq|]. intros k ?. by apply lookup_insert_ne.
Qed.

Lemma async_pending_keeps_rest_witness :
  ∃ s' : gmap string value,
    createAsyncReducer "FETCH_USER" None
      (Some (<["data" := VNum 1]> (<["error" := VStr "old"]> ∅)))
      (Action "FETCH_USER_PENDING" VUndefined None) = Return s'
    ∧ s' !! "pending" = Some (VBool true)
    ∧ s' !! "error" = Some (VStr "old").
Proof.
  destruct (async_pending_keeps_rest "FETCH_USER" None
              (<["data" := VNum 1]> (<["error" := VStr "old"]> ∅))
              (Action "FETCH_USER_PENDING" VUndefined None))
    as (s' & Hs & Hpending & Hrest); [reflexivity | reflexivity |].
  exists s'. split; [exact Hs|]. split; [exact Hpending|].
  rewrite Hrest by discriminate. vm_compute. reflexivity.
Defined.

(** The frame of the keyed branch on a state of the declared shape. *)
Lemma with_entity_frame (k : string)
    (existing : gmap string value → gmap string value)
    (fresh s : gmap string value) :
  async_typed s →
  ∃ s' : gmap string value,
    with_entity k existing fresh s = Return s'
    ∧ (JS.inherited k = false ∨ is_Some (entities_of s !! k) →
       ∃ record : gmap string value, entities_of s' !! k = Some (VObj record))
    ∧ (JS.inherited k = true → entities_of s !! k = None →
       entities_of s' = entities_of s)
    ∧ (∀ k', k' ≠ k → entities_of s' !! k' = entities_of s !! k')
    ∧ (∀ f, f ≠ "dataEntity" → s' !! f = s !! f).
Proof.
  intros Htyped. rewrite with_entity_typed_spec by done.
  eexists. split; [reflexivity|]. rewrite entities_of_insert.
  destruct (reads_builtin_cases (entities_of s) k)
    as [(-> & Hin & Hnone) | (-> & Hown)].
  - split.
    { intros [Hout | [v Hv]]; congruence. }
    split; [done|]. split; [done|].
    intros f ?. by apply lookup_insert_ne.
  - split.
    { intros _. eexists. apply lookup_insert_eq. }
    split.
    { intros Hin Hnone. destruct Hown as [Hout | [v Hv]]; congruence. }
    split; [intros k' ?; by apply lookup_insert_ne|].
    intros f ?. by apply lookup_insert_ne.
Qed.

(** X2.  A keyed PENDING, SUCCESS or FAIL works on the record under its key
    only: every top-level property other than [dataEntity] and the record
    under every other key are those of the prior state.  Afterwards there is
    a record under the key, provided the key names no member of
    [Object.prototype] or the state already has a record under it; at a key
    that names such a member and has no record, the transition reads the
    inherited member instead and the records stay exactly as they were. *)
Theorem async_keyed_touches_one_record (p : string) (init : option (gmap string value))
    (s : gmap string value) (a : action) (k : string) :
  async_typed s →
  type a ∈ [ActionTypeMaker.PENDING p; ActionTypeMaker.SUCCESS p; ActionTypeMaker.FAIL p] →
  truthy_key a = Some k →
  ∃ s' : gmap string value,
    createAsyncReducer p init (Some s) a = Return s'
    ∧ (JS.inherited k = false ∨ is_Some (entities_of s !! k) →
       ∃ record : gmap string value, entities_of s' !! k = Some (VObj record))
    ∧ (JS.inherited k = true → entities_of s !! k = None →
       entities_of s' = entities_of s)
    ∧ (∀ k', k' ≠ k → entities_of s' !! k' = entities_of s !! k')
    ∧ (∀ f, f ≠ "dataEntity" → s' !! f = s !! f).
Proof.
  intros Htyped Htype Hkey.
  repeat (apply elem_of_cons in Htype as [Htype|Htype]);
    [.. | by apply elem_of_nil in Htype].
  - rewrite async_on_PENDING by done. unfold async_pending. rewrite Hkey.
    simpl default. by apply with_entity_frame.
  - rewrite async_on_SUCCESS by done. unfold async_success. rewrite Hkey.
    simpl default. by apply with_entity_frame.
  - rewrite async_on_FAIL by done. unfold async_fail. rewrite Hkey.
    simpl default. by apply with_entity_frame.
Qed.

Lemma async_keyed_touches_one_record_witness :
  let record (n : Z) : value :=
    VObj (<["data" := VNum n]> (<["pending" := VBool false]> (<["error" := VNull]> ∅))) in
  let s : gmap string value :=
    <["dataEntity" := VObj (<["a" := record 1]> (<["b" := record 2]> ∅))]>
      defaultAsyncState in
  (∃ s' : gmap string value,
     createAsyncReducer "FETCH_USER" None (Some s)
       (Action "FETCH_USER_SUCCESS" (VNum 7) (Some "a")) = Return s'
     ∧ (∃ r : gmap string value, entities_of s' !! "a" = Some (VObj r))
     ∧ entities_of s' !! "b" = Some (record 2)
     ∧ s' !! "data" = Some VNull)
  ∧ (∃ s' : gmap string value,
       createAsyncReducer "FETCH_USER" None (Some s)
         (Action "FETCH_USER_SUCCESS" (VNum 7) (Some "toString")) = Return s'
       ∧ entities_of s' = entities_of s).
Proof.
  intros record s.
  assert (Htyped : async_typed s).
  { right. eexists. split; [apply lookup_insert_eq|].
    apply records_insert, records_insert, records_empty. }
  split.
  - destruct (async_keyed_touches_one_record "FETCH_USER" None s
                (Action "FETCH_USER_SUCCESS" (VNum 7) (Some "a")) "a")
      as (s' & Hs & Hrecord & _ & Hother & Htop).
    + exact Htyped.
    + apply elem_of_cons. right. apply elem_of_cons. left. reflexivity.
    + reflexivity.
    + exists s'. split; [exact Hs|].
      split; [apply Hrecord; left; reflexivity|].
      split; [rewrite Hother by discriminate | rewrite Htop by discriminate];
        vm_compute; reflexivity.
  - destruct (async_keyed_touches_one_record "FETCH_USER" None s
                (Action "FETCH_USER_SUCCESS" (VNum 7) (Some "toString")) "toString")
      as (s' & Hs & _ & Hbuiltin & _).
    + exact Htyped.
    + apply elem_of_cons. right. apply elem_of_cons. left. reflexivity.
    + reflexivity.
    + exists s'. split; [exact Hs|].
      apply Hbuiltin; vm_compute; reflexivity.
Defined.

(** X3.  A keyed transition on a key that already has a record rewrites that
    record in place: PENDING only sets its [pending]; SUCCESS sets its
    [data], clears its [error] and its [pending]; FAIL sets its [error] and
    clears its [pending], so a failure on an existing record, unlike one
    that creates the record, leaves [pending] false.  The record's other
    fields stay. *)
Theorem async_keyed_updates_record (p : string) (init : option (gmap string value))
    (s record : gmap string value) (a : action) (k : string) :
  async_typed s →
  truthy_key a = Some k →
  entities_of s !! k = Some (VObj record) →
  (type a = ActionTypeMaker.PENDING p →
   ∃ s' record' : gmap string value,
     createAsyncReducer p init (Some s) a = Return s'
     ∧ entities_of s' !! k = Some (VObj record')
     ∧ record' !! "pending" = Some (VBool true)
     ∧ ∀ f, f ≠ "pending" → record' !! f = record !! f)
  ∧ (type a = ActionTypeMaker.SUCCESS p →
     ∃ s' record' : gmap string value,
       createAsyncReducer p init (Some s) a = Return s'
       ∧ entities_of s' !! k = Some (VObj record')
       ∧ record' !! "data" = Some (payload a)
       ∧ record' !! "error" = Some VNull
       ∧ record' !! "pending" = Some (VBool false)
       ∧ ∀ f, f ≠ "data" → f ≠ "error" → f ≠ "pending" → record' !! f = record !! f)
  ∧ (type a = ActionTypeMaker.FAIL p →
     ∃ s' record' : gmap string value,
       createAsyncReducer p init (Some s) a = Return s'
       ∧ entities_of s' !! k = Some (VObj record')
       ∧ record' !! "error" = Some (payload a)
       ∧ record' !! "pending" = Some (VBool false)
       ∧ ∀ f, f ≠ "error" → f ≠ "pending" → record' !! f = record !! f).
Proof.
  intros Htyped Hkey Hrecord. split; [|split]; intros Htype.
  - rewrite async_on_PENDING by done. unfold async_pending. rewrite Hkey.
    simpl default.
    rewrite with_entity_typed_own, Hrecord by (done || by eapply reads_builtin_own).
    eexists _, _. split; [reflexivity|]. rewrite entities_of_insert.
    split; [apply lookup_insert_eq|]. split; [apply lookup_insert_eq|].
    intros f ?. by apply lookup_insert_ne.
  - rewrite async_on_SUCCESS by done. unfold async_success. rewrite Hkey.
    simpl default.
    rewrite with_entity_typed_own, Hrecord by (done || by eapply reads_builtin_own).
    eexists _, _. split; [reflexivity|]. rewrite entities_of_insert.
    split; [apply lookup_insert_eq|].
    split; [by simplify_map_eq|]. split; [by simplify_map_eq|].
    split; [by simplify_map_eq|]. intros f ? ? ?. by simplify_map_eq.
  - rewrite async_on_FAIL by done. unfold async_fail. rewrite Hkey.
    simpl default.
    rewrite with_entity_typed_own, Hrecord by (done || by eapply reads_builtin_own).
    eexists _, _. split; [reflexivity|]. rewrite entities_of_insert.
    split; [apply lookup_insert_eq|].
    split; [by simplify_map_eq|]. split; [by simplify_map_eq|].
    intros f ? ?. by simplify_map_eq.
Qed.

Lemma async_keyed_updates_record_witness :
  let record : gmap string value :=
    <["data" := VNum 1]> (<["pending" := VBool true]> (<["error" := VNull]> ∅)) in
  let s : gmap string value :=
    <["dataEntity" := VObj (<["a" := VObj record]> ∅)]> defaultAsyncState in
  ∃ s' record' : gmap string value,
    createAsyncReducer "FETCH_USER" None (Some s)
      (Action "FETCH_USER_FAIL" (VStr "timeout") (Some "a")) = Return s'
    ∧ entities_of s' !! "a" = Some (VObj record')
    ∧ record' !! "pending" = Some (VBool false)
    ∧ record' !! "data" = Some (VNum 1).
Proof.
  intros record s.
  destruct (async_keyed_updates_record "FETCH_USER" None s record
              (Action "FETCH_USER_FAIL" (VStr "timeout") (Some "a")) "a")
    as (_ & _ & Hfail).
  - right. eexists. split; [apply lookup_insert_eq|].
    apply records_insert, records_empty.
  - reflexivity.
  - unfold s. rewrite entities_of_insert. apply lookup_insert_eq.
  - destruct (Hfail eq_refl) as (s' & record' & Hs & Hk & _ & Hpending & Hrest).
    exists s', record'. split; [exact Hs|]. split; [exact Hk|].
    split; [exact Hpending|]. rewrite Hrest by discriminate. vm_compute. reflexivity.
Defined.

(** X4.  At a key that names no member of [Object.prototype] and under which
    the state has no record, the record a keyed transition creates depends
    on the transition: SUCCESS stores exactly [data], [error] and [pending]
    and nothing of [initialState], while PENDING stores the reducer's
    default state, extra fields of [initialState] included, with [pending]
    set. *)
Theorem async_fresh_record_shape (p : string) (init : option (gmap string value))
    (s : gmap string value) (a : action) (k : string) :
  JS.inherited k = false →
  no_entity s k →
  truthy_key a = Some k →
  (type a = ActionTypeMaker.SUCCESS p →
   ∃ s' record' : gmap string value,
     createAsyncReducer p init (Some s) a = Return s'
     ∧ entities_of s' !! k = Some (VObj record')
     ∧ record' !! "data" = Some (payload a)
     ∧ record' !! "error" = Some VNull
     ∧ record' !! "pending" = Some (VBool false)
     ∧ ∀ f, f ≠ "data" → f ≠ "error" → f ≠ "pending" → record' !! f = None)
  ∧ (type a = ActionTypeMaker.PENDING p →
     ∃ s' record' : gmap string value,
       createAsyncReducer p init (Some s) a = Return s'
       ∧ entities_of s' !! k = Some (VObj record')
       ∧ record' !! "pending" = Some (VBool true)
       ∧ ∀ f, f ≠ "pending" → record' !! f = async_defaultState init !! f).
Proof.
  intros Hown Hno Hkey. split; intros Htype.
  - rewrite async_on_SUCCESS by done. unfold async_success. rewrite Hkey.
    simpl default.
    destruct (with_entity_fresh k
                (λ data, <["pending" := VBool false]>
                           (<["error" := VNull]> (<["data" := payload a]> data)))
                (<["data" := payload a]>
                   (<["error" := VNull]> (<["pending" := VBool false]> ∅)))
                s Hown Hno) as (entities & -> & _).
    eexists _, _. split; [reflexivity|]. rewrite entities_of_insert.
    split; [apply lookup_insert_eq|].
    split; [by simplify_map_eq|]. split; [by simplify_map_eq|].
    split; [by simplify_map_eq|]. intros f ? ? ?. by simplify_map_eq.
  - rewrite async_on_PENDING by done. unfold async_pending. rewrite Hkey.
    simpl default.
    destruct (with_entity_fresh k (λ data, <["pending" := VBool true]> data)
                (<["pending" := VBool true]> (async_defaultState init))
                s Hown Hno) as (entities & -> & _).
    eexists _, _. split; [reflexivity|]. rewrite entities_of_insert.
    split; [apply lookup_insert_eq|]. split; [apply lookup_insert_eq|].
    intros f ?. by apply lookup_insert_ne.
Qed.

Lemma async_fresh_record_shape_witness :
  let init : gmap string value := <["data" := VArr []]> (<["meta" := VStr "v1"]> ∅) in
  (∃ s' record' : gmap string value,
     createAsyncReducer "FETCH_USER" (Some init) None
       (Action "FETCH_USER_SUCCESS" (VNum 7) (Some "a")) = Return s'
     ∧ entities_of s' !! "a" = Some (VObj record')
     ∧ record' !! "meta" = None)
  ∧ (∃ s' record' : gmap string value,
       createAsyncReducer "FETCH_USER" (Some init) None
         (Action "FETCH_USER_PENDING" VUndefined (Some "a")) = Return s'
       ∧ entities_of s' !! "a" = Some (VObj record')
       ∧ record' !! "meta" = Some (VStr "v1")).
Proof.
  intros init.
  assert (Hno : no_entity (async_defaultState (Some init)) "a")
    by (left; vm_compute; reflexivity).
  split.
  - destruct (async_fresh_record_shape "FETCH_USER" (Some init)
                (async_defaultState (Some init))
                (Action "FETCH_USER_SUCCESS" (VNum 7) (Some "a")) "a" eq_refl Hno eq_refl)
      as [Hsuccess _].
    destruct (Hsuccess eq_refl) as (s' & record' & Hs & Hk & _ & _ & _ & Hrest).
    exists s', record'. split; [exact Hs|]. split; [exact Hk|].
    apply Hrest; discriminate.
  - destruct (async_fresh_record_shape "FETCH_USER" (Some init)
                (async_defaultState (Some init))
                (Action "FETCH_USER_PENDING" VUndefined (Some "a")) "a" eq_refl Hno eq_refl)
      as [_ Hpending].
    destruct (Hpending eq_refl) as (s' & record' & Hs & Hk & _ & Hrest).
    exists s', record'. split; [exact Hs|]. split; [exact Hk|].
    rewrite Hrest by discriminate. vm_compute. reflexivity.
Defined.

Lemma dataEntity_path_neq (k : string) : String.append "dataEntity." k ≠ "dataEntity".
Proof. simpl. discriminate. Qed.

(** [_.unset(state, 'dataEntity.' + k)] for a key free of path syntax on a
    state of the declared shape: a top-level property of that literal name
    is what gets deleted; otherwise the record under [k] is. *)
Lemma unset_dataEntity_key_spec (k : string) (s : gmap string value) :
  plain_key k = true →
  async_typed s →
  Lodash.unset s (String.append "dataEntity." k)
  = Return (match s !! String.append "dataEntity." k with
            | Some _ => delete (String.append "dataEntity." k) s
            | None =>
                match s !! "dataEntity" with
                | Some (VObj entities) => <["dataEntity" := VObj (delete k entities)]> s
                | _ => s
                end
            end).
Proof.
  intros Hplain Htyped. unfold Lodash.unset.
  destruct (s !! String.append "dataEntity." k) as [v|] eqn:Hlit.
  - unfold Lodash.castPath, Lodash.isKey.
    replace (Lodash.isPlainProp (String.append "dataEntity." k)) with false by reflexivity.
    replace (Lodash.has_char "." (String.append "dataEntity." k)) with true by reflexivity.
    rewrite Hlit. reflexivity.
  - rewrite castPath_dataEntity_key by done. simpl.
    destruct Htyped as [-> | (entities & -> & _)]; reflexivity.
Qed.

(** X5.  RESET as the keyed states are meant to be cleared.  Without a key
    the three top-level fields are reset and the keyed records stay; with
    ['*'] the whole [dataEntity] goes and the top-level fields stay; with a
    key free of ['.'], ['['] and [']'] (on a state with no top-level property
    literally named [dataEntity.<key>]) the record under that key goes,
    every other record and every top-level field stays. *)
Theorem async_reset_scopes (p : string) (init : option (gmap string value))
    (s : gmap string value) (a : action) :
  async_typed s →
  type a = ActionTypeMaker.RESET p →
  (truthy_key a = None →
   ∃ s' : gmap string value,
     createAsyncReducer p init (Some s) a = Return s'
     ∧ s' !! "data" = Some VNull ∧ s' !! "error" = Some VNull
     ∧ s' !! "pending" = Some (VBool false)
     ∧ s' !! "dataEntity" = s !! "dataEntity")
  ∧ (truthy_key a = Some "*" →
     ∃ s' : gmap string value,
       createAsyncReducer p init (Some s) a = Return s'
       ∧ s' !! "dataEntity" = None
       ∧ ∀ f, f ≠ "dataEntity" → s' !! f = s !! f)
  ∧ (∀ k, truthy_key a = Some k → k ≠ "*" → plain_key k = true →
          s !! String.append "dataEntity." k = None →
     ∃ s' : gmap string value,
       createAsyncReducer p init (Some s) a = Return s'
       ∧ entities_of s' !! k = None
       ∧ (∀ k', k' ≠ k → entities_of s' !! k' = entities_of s !! k')
       ∧ ∀ f, f ≠ "dataEntity" → s' !! f = s !! f).
Proof.
  intros Htyped Htype. rewrite async_on_RESET by done. unfold async_reset.
  simpl default. split; [|split].
  - intros ->. eexists. split; [reflexivity|]. by simplify_map_eq.
  - intros ->. rewrite decide_True by done. eexists. split; [reflexivity|].
    split; [apply lookup_delete_eq|]. intros f ?. by apply lookup_delete_ne.
  - intros k -> Hstar Hplain Hlit. rewrite decide_False by done.
    rewrite unset_dataEntity_key_spec, Hlit by done.
    unfold entities_of.
    destruct Htyped as [Hnone | (entities & Hsome & _)].
    + rewrite Hnone. exists s. rewrite Hnone.
      split; [reflexivity|]. split; [apply lookup_empty|]. done.
    + rewrite Hsome. eexists. split; [reflexivity|]. rewrite lookup_insert_eq.
      split; [apply lookup_delete_eq|].
      split; [intros k' ?; by apply lookup_delete_ne|].
      intros f ?. by apply lookup_insert_ne.
Qed.

Lemma async_reset_scopes_witness :
  let record (n : Z) : value :=
    VObj (<["data" := VNum n]> (<["pending" := VBool false]> (<["error" := VNull]> ∅))) in
  let s : gmap string value :=
    <["dataEntity" := VObj (<["a" := record 1]> (<["b" := record 2]> ∅))]>
      (<["data" := VNum 5]> defaultAsyncState) in
  (∃ s', createAsyncReducer "FETCH_USER" None (Some s)
           (Action "FETCH_USER_RESET" VUndefined None) = Return s'
         ∧ s' !! "data" = Some VNull ∧ entities_of s' !! "a" = Some (record 1))
  ∧ (∃ s', createAsyncReducer "FETCH_USER" None (Some s)
             (Action "FETCH_USER_RESET" VUndefined (Some "*")) = Return s'
           ∧ s' !! "dataEntity" = None ∧ s' !! "data" = Some (VNum 5))
  ∧ (∃ s', createAsyncReducer "FETCH_USER" None (Some s)
             (Action "FETCH_USER_RESET" VUndefined (Some "a")) = Return s'
           ∧ entities_of s' !! "a" = None ∧ entities_of s' !! "b" = Some (record 2)).
Proof.
  intros record s.
  assert (Htyped : async_typed s).
  { right. eexists. split; [apply lookup_insert_eq|].
    apply records_insert, records_insert, records_empty. }
  split; [|split].
  - destruct (async_reset_scopes "FETCH_USER" None s
                (Action "FETCH_USER_RESET" VUndefined None) Htyped eq_refl)
      as (Htop & _).
    destruct (Htop eq_refl) as (s' & Hs & Hdata & _ & _ & Hde).
    exists s'. split; [exact Hs|]. split; [exact Hdata|].
    unfold entities_of. rewrite Hde. vm_compute. reflexivity.
  - destruct (async_reset_scopes "FETCH_USER" None s
                (Action "FETCH_USER_RESET" VUndefined (Some "*")) Htyped eq_refl)
      as (_ & Hstar & _).
    destruct (Hstar eq_refl) as (s' & Hs & Hde & Hrest).
    exists s'. split; [exact Hs|]. split; [exact Hde|].
    rewrite Hrest by discriminate. vm_compute. reflexivity.
  - destruct (async_reset_scopes "FETCH_USER" None s
                (Action "FETCH_USER_RESET" VUndefined (Some "a")) Htyped eq_refl)
      as (_ & _ & Hkey).
    destruct (Hkey "a" eq_refl) as (s' & Hs & Hgone & Hother & _).
    + discriminate.
    + vm_compute. reflexivity.
    + vm_compute. reflexivity.
    + exists s'. split; [exact Hs|]. split; [exact Hgone|].
      rewrite Hother by discriminate. vm_compute. reflexivity.
Defined.

(** X6.  Clearing what a keyed PENDING created.  Take a key other than
    ['*'] and free of ['.'], ['['] and [']'], and a state of the declared
    shape that has no record under that key and no top-level property
    literally named [dataEntity.<key>].  PENDING with that key followed by
    RESET with the same key leaves the records and the top-level fields as
    they were; [dataEntity] itself is then present, empty if it was absent
    before.  (With the key ['*'] RESET removes [dataEntity] as a whole, and
    a top-level property [dataEntity.<key>] is what RESET would delete.) *)
Theorem async_pending_then_reset (p : string) (init : option (gmap string value))
    (s : gmap string value) (a r : action) (k : string) :
  async_typed s →
  no_entity s k →
  k ≠ "*" →
  plain_key k = true →
  s !! String.append "dataEntity." k = None →
  type a = ActionTypeMaker.PENDING p → truthy_key a = Some k →
  type r = ActionTypeMaker.RESET p → truthy_key r = Some k →
  ∃ s1 s2 : gmap string value,
    createAsyncReducer p init (Some s) a = Return s1
    ∧ createAsyncReducer p init (Some s1) r = Return s2
    ∧ s2 !! "dataEntity" = Some (VObj (entities_of s))
    ∧ ∀ f, f ≠ "dataEntity" → s2 !! f = s !! f.
Proof.
  intros Htyped Hno Hstar Hplain Hlit Hta Hka Htr Hkr.
  assert (Hk : entities_of s !! k = None).
  { unfold entities_of. destruct Hno as [-> | (entities & -> & Hk)];
      [apply lookup_empty | exact Hk]. }
  rewrite async_on_PENDING by done. unfold async_pending. rewrite Hka.
  simpl default. rewrite with_entity_typed_spec, Hk by done.
  eexists _, _. split; [reflexivity|].
  rewrite async_on_RESET by done. unfold async_reset. rewrite Hkr.
  simpl default. rewrite decide_False by done.
  rewrite unset_dataEntity_key_spec; [|done|].
  - rewrite lookup_insert_ne by (apply not_eq_sym, dataEntity_path_neq).
    rewrite Hlit, lookup_insert_eq. split; [reflexivity|].
    rewrite insert_insert_eq, lookup_insert_eq.
    assert (Hsame : delete k (if JS.reads_builtin (entities_of s) k
                              then entities_of s
                              else <[k := VObj (<["pending" := VBool true]>
                                                  (async_defaultState init))]>
                                     (entities_of s))
                    = entities_of s).
    { destruct (JS.reads_builtin (entities_of s) k);
        [by apply delete_id | by apply delete_insert_id]. }
    rewrite Hsame. split; [reflexivity|]. intros f ?. by apply lookup_insert_ne.
  - right. eexists. split; [apply lookup_insert_eq|].
    destruct (JS.reads_builtin (entities_of s) k).
    + intros k' v Hv. by eapply entities_of_typed.
    + apply records_insert. intros k' v Hv. by eapply entities_of_typed.
Qed.

Lemma async_pending_then_reset_witness :
  ∃ s1 s2 : gmap string value,
    createAsyncReducer "FETCH_USER" None (Some defaultAsyncState)
      (Action "FETCH_USER_PENDING" VUndefined (Some "42")) = Return s1
    ∧ createAsyncReducer "FETCH_USER" None (Some s1)
        (Action "FETCH_USER_RESET" VUndefined (Some "42")) = Return s2
    ∧ s2 !! "dataEntity" = Some (VObj ∅)
    ∧ s2 !! "pending" = Some (VBool false).
Proof.
  destruct (async_pending_then_reset "FETCH_USER" None defaultAsyncState
              (Action "FETCH_USER_PENDING" VUndefined (Some "42"))
              (Action "FETCH_USER_RESET" VUndefined (Some "42")) "42")
    as (s1 & s2 & H1 & H2 & Hde & Hrest).
  - left. vm_compute. reflexivity.
  - left. vm_compute. reflexivity.
  - discriminate.
  - vm_compute. reflexivity.
  - vm_compute. reflexivity.
  - reflexivity.
  - reflexivity.
  - reflexivity.
  - reflexivity.
  - exists s1, s2. split; [exact H1|]. split; [exact H2|].
    split; [rewrite Hde; vm_compute; reflexivity|].
    rewrite Hrest by discriminate. vm_compute. reflexivity.
Defined.

Lemma async_typed_insert_other (f : string) (v : value) (s : gmap string value) :
  f ≠ "dataEntity" → async_typed s → async_typed (<[f := v]> s).
Proof.
  intros Hf [Hnone | (entities & Hsome & Hrec)].
  - left. by rewrite lookup_insert_ne.
  - right. exists entities. by rewrite lookup_insert_ne.
Qed.

Lemma async_typed_delete_other (f : string) (s : gmap string value) :
  f ≠ "dataEntity" → async_typed s → async_typed (delete f s).
Proof.
  intros Hf [Hnone | (entities & Hsome & Hrec)].
  - left. by rewrite lookup_delete_ne.
  - right. exists entities. by rewrite lookup_delete_ne.
Qed.

Lemma async_typed_entities (s entities : gmap string value) :
  (∀ k v, entities !! k = Some v → ∃ o, v = VObj o) →
  async_typed (<["dataEntity" := VObj entities]> s).
Proof. intros Hrec. right. exists entities. by rewrite lookup_insert_eq. Qed.

Lemma with_entity_keeps_typed (k : string)
    (existing : gmap string value → gmap string value)
    (fresh s : gmap string value) :
  async_typed s →
  ∃ s', with_entity k existing fresh s = Return s' ∧ async_typed s'.
Proof.
  intros Htyped. rewrite with_entity_typed_spec by done.
  eexists. split; [reflexivity|].
  apply async_typed_entities.
  destruct (JS.reads_builtin (entities_of s) k); [|apply records_insert];
    intros k' v; by apply entities_of_typed.
Qed.

(** X7.  The declared shape of the state is an invariant of the simple
    reducer: from a state whose [dataEntity] is absent or maps keys to
    records, every action (of a derived type or not, with any payload; for
    RESET with no key, ['*'] or a key free of path syntax) yields a state of
    that shape again. *)
Theorem async_typed_preserved (p : string) (init : option (gmap string value))
    (s : gmap string value) (a : action) :
  async_typed s →
  (type a = ActionTypeMaker.RESET p →
   ∀ k, truthy_key a = Some k → k = "*" ∨ plain_key k = true) →
  ∃ s' : gmap string value,
    createAsyncReducer p init (Some s) a = Return s' ∧ async_typed s'.
Proof.
  intros Htyped Hreset.
  destruct (decide (type a = ActionTypeMaker.PENDING p)) as [Hp|Hp];
    [|destruct (decide (type a = ActionTypeMaker.SUCCESS p)) as [Hs|Hs];
      [|destruct (decide (type a = ActionTypeMaker.FAIL p)) as [Hf|Hf];
        [|destruct (decide (type a = ActionTypeMaker.RESET p)) as [Hr|Hr]]]].
  - rewrite async_on_PENDING by done. unfold async_pending. simpl default.
    destruct (truthy_key a); [by apply with_entity_keeps_typed|].
    eexists. split; [reflexivity|]. by apply async_typed_insert_other.
  - rewrite async_on_SUCCESS by done. unfold async_success. simpl default.
    destruct (truthy_key a); [by apply with_entity_keeps_typed|].
    eexists. split; [reflexivity|]. by repeat apply async_typed_insert_other.
  - rewrite async_on_FAIL by done. unfold async_fail. simpl default.
    destruct (truthy_key a); [by apply with_entity_keeps_typed|].
    eexists. split; [reflexivity|]. by repeat apply async_typed_insert_other.
  - rewrite async_on_RESET by done. unfold async_reset. simpl default.
    destruct (truthy_key a) as [k|] eqn:Hk.
    + case_decide as Hstar.
      * eexists. split; [reflexivity|]. left. apply lookup_delete_eq.
      * destruct (Hreset Hr k eq_refl) as [?|Hplain]; [done|].
        rewrite unset_dataEntity_key_spec by done.
        eexists. split; [reflexivity|].
        destruct (s !! String.append "dataEntity." k).
        { apply async_typed_delete_other; [apply dataEntity_path_neq | done]. }
        destruct (s !! "dataEntity") as [[ | | | | | |entities]|] eqn:Hde; try done.
        apply async_typed_entities. intros k' v Hv.
        destruct (decide (k = k')) as [->|Hne];
          [by rewrite lookup_delete_eq in Hv|].
        rewrite lookup_delete_ne in Hv by done.
        eapply (entities_of_typed s k' v Htyped).
        unfold entities_of. by rewrite Hde.
    + eexists. split; [reflexivity|]. by repeat apply async_typed_insert_other.
  - exists s. split; [|done].
    unfold createAsyncReducer. cbv zeta. by rewrite !decide_False.
Qed.

Lemma async_typed_preserved_witness :
  ∃ s' : gmap string value,
    createAsyncReducer "FETCH_USER" None (Some defaultAsyncState)
      (Action "FETCH_USER_SUCCESS" (VStr "profile") (Some "42")) = Return s'
    ∧ async_typed s'.
Proof.
  apply (async_typed_preserved "FETCH_USER" None defaultAsyncState
           (Action "FETCH_USER_SUCCESS" (VStr "profile") (Some "42"))).
  - left. vm_compute. reflexivity.
  - intros Hr. discriminate Hr.
Defined.

(** X8.  Called with an undefined state and an action of no derived type,
    either reducer returns its default state: every property that
    [initialState] has, and beside them the built-in defaults ([data],
    [pending], [error]; for paging also [offset] and [hasMore]) that
    [initialState] does not set. *)
Theorem reducers_start_from_default (p : string) (init : option (gmap string value))
    (a : action) :
  (type a ∉ async_types p →
   ∃ d : gmap string value,
     createAsyncReducer p init None a = Return d
     ∧ ∀ k, d !! k = match default defaultAsyncState init !! k with
                     | Some v => Some v
                     | None => defaultAsyncState !! k
                     end)
  ∧ (type a ∉ paging_types p →
     ∃ d : gmap string value,
       createAsyncPagingReducer p init None a = Return d
       ∧ ∀ k, d !! k = match default defaultAsyncPagingState init !! k with
                       | Some v => Some v
                       | None => defaultAsyncPagingState !! k
                       end).
Proof.
  split; intros Hnot; eexists; (split; [|intros k; apply lookup_spread]);
    unfold createAsyncReducer, createAsyncPagingReducer; cbv zeta;
    repeat (case_decide as Heq;
            [exfalso; apply Hnot; rewrite Heq;
             cbv [async_types paging_types]; set_solver | clear Heq]);
    reflexivity.
Qed.

Lemma reducers_start_from_default_witness :
  ∃ d : gmap string value,
    createAsyncReducer "FETCH_USER" (Some (<["data" := VObj ∅]> ∅)) None
      (Action "@@INIT" VUndefined None) = Return d
    ∧ d !! "data" = Some (VObj ∅)
    ∧ d !! "pending" = Some (VBool false)
    ∧ d !! "error" = Some VNull.
Proof.
  pose proof (reducers_start_from_default "FETCH_USER" (Some (<["data" := VObj ∅]> ∅))
                (Action "@@INIT" VUndefined None)) as [Hasync _].
  destruct Hasync as (d & Hd & Hk).
  - simpl. intros Hin.
    repeat (apply elem_of_cons in Hin as [Hin|Hin]; [discriminate Hin|]).
    by apply elem_of_nil in Hin.
  - exists d. split; [exact Hd|]. rewrite !Hk. vm_compute. repeat split.
Defined.

(** ** The paging reducer *)

(** Searching items for an id: the index of the first item that has it. *)
Lemma findIndex_id_first (v : value) (before : list value) (x : value)
    (after : list value) :
  Forall is_item (before ++ x :: after) →
  Forall (λ y, ¬ has_id v y) before →
  has_id v x →
  JS.findIndex (λ e, x' ← JS.member e "id"; JS.strict_eq x' v) (before ++ x :: after)
  = Return (Z.of_nat (length before)).
Proof.
  intros Hitems Hbefore Hx.
  apply Forall_app in Hitems as [Hib Hia]. apply Forall_cons in Hia as [Hix _].
  unfold JS.findIndex. rewrite (findIndex_from_first _ before x after).
  - f_equal.
  - apply Forall_forall. intros y Hy.
    destruct (id_callback_item v y) as [[_ Hhas] | [Hcb _]]; [| |done].
    + eapply Forall_forall in Hib; eauto.
    + eapply Forall_forall in Hbefore; eauto. contradiction.
  - destruct (id_callback_item v x Hix) as [[Hcb _] | [_ Hnot]]; [done | contradiction].
Qed.

Lemma findIndex_id_none (v : value) (items : list value) :
  Forall is_item items →
  Forall (λ y, ¬ has_id v y) items →
  JS.findIndex (λ e, x' ← JS.member e "id"; JS.strict_eq x' v) items = Return (-1).
Proof.
  intros Hitems Hnone. apply findIndex_from_none.
  apply Forall_forall. intros y Hy.
  destruct (id_callback_item v y) as [[_ Hhas] | [Hcb _]]; [| |done].
  - eapply Forall_forall in Hitems; eauto.
  - eapply Forall_forall in Hnone; eauto. contradiction.
Qed.

Lemma set_index_middle (before : list value) (x y : value) (after : list value) :
  JS.set_index (Z.of_nat (length before)) y (before ++ x :: after)
  = before ++ y :: after.
Proof.
  unfold JS.set_index. rewrite Nat2Z.id.
  replace (length before) with (length before + 0)%nat by lia.
  by rewrite insert_app_r.
Qed.

Lemma splice1_middle (before : list value) (x : value) (after : list value) :
  JS.splice1 (Z.of_nat (length before)) (before ++ x :: after) = before ++ after.
Proof. unfold JS.splice1. by rewrite Nat2Z.id, delete_middle. Qed.

Lemma index_nonneg (l : list value) : (0 <=? Z.of_nat (length l)) = true.
Proof. apply Z.leb_le. lia. Qed.

(** X9.  PENDING with an object payload always ends with [pending] and
    [hasMore] true, whatever the payload says about them.  A truthy [clear]
    empties [data] and zeroes [offset] unless the payload carries its own
    [data] or [offset]; every other payload field is copied onto the state;
    [clear] itself is never stored, and fields the payload does not name are
    kept. *)
Theorem paging_pending_merges (p : string) (init : option (gmap string value))
    (s : gmap string value) (a : action) (props : gmap string value) :
  type a = ActionTypeMaker.PENDING p →
  payload a = VObj props →
  let clear := JS.truthy (JS.get props "clear") in
  let rest := delete "clear" props in
  ∃ s' : gmap string value,
    createAsyncPagingReducer p init (Some s) a = Return s'
    ∧ s' !! "pending" = Some (VBool true)
    ∧ s' !! "hasMore" = Some (VBool true)
    ∧ s' !! "clear" = s !! "clear"
    ∧ (∀ k v, k ≠ "pending" → k ≠ "hasMore" → rest !! k = Some v → s' !! k = Some v)
    ∧ (rest !! "data" = None →
       s' !! "data" = if clear then Some (VArr []) else s !! "data")
    ∧ (rest !! "offset" = None →
       s' !! "offset" = if clear then Some (VNum 0) else s !! "offset")
    ∧ (∀ k, rest !! k = None →
            k ∉ ["pending"; "hasMore"; "data"; "offset"] → s' !! k = s !! k).
Proof.
  intros Htype Hpayload clear rest.
  rewrite paging_on_PENDING by done. simpl default.
  unfold paging_pending. rewrite Hpayload. simpl mbind. simpl JS.own_props.
  fold clear. fold rest.
  assert (Hrest_clear : rest !! "clear" = None) by apply lookup_delete_eq.
  eexists. split; [reflexivity|].
  split; [by simplify_map_eq|]. split; [by simplify_map_eq|].
  split.
  { rewrite !lookup_insert_ne, lookup_assign_all, Hrest_clear by done.
    destruct clear; by simplify_map_eq. }
  split.
  { intros k v ? ? Hk. by rewrite !lookup_insert_ne, lookup_assign_all, Hk by done. }
  split.
  { intros Hk. rewrite !lookup_insert_ne, lookup_assign_all, Hk by done.
    destruct clear; by simplify_map_eq. }
  split.
  { intros Hk. rewrite !lookup_insert_ne, lookup_assign_all, Hk by done.
    destruct clear; by simplify_map_eq. }
  intros k Hk Hnot. rewrite !lookup_insert_ne by set_solver.
  rewrite lookup_assign_all, Hk.
  destruct clear; [|done]. rewrite !lookup_insert_ne by set_solver. done.
Qed.

Lemma paging_pending_merges_witness :
  let s : gmap string value :=
    <["data" := VArr [VObj ∅]]> (<["offset" := VNum 1]> defaultAsyncPagingState) in
  ∃ s' : gmap string value,
    createAsyncPagingReducer "FETCH_CARTS" None (Some s)
      (Action "FETCH_CARTS_PENDING"
         (VObj (<["clear" := VBool true]> (<["hasMore" := VBool false]>
                  (<["page" := VNum 2]> ∅)))) None) = Return s'
    ∧ s' !! "hasMore" = Some (VBool true)
    ∧ s' !! "data" = Some (VArr [])
    ∧ s' !! "page" = Some (VNum 2)
    ∧ s' !! "clear" = None.
Proof.
  intros s.
  destruct (paging_pending_merges "FETCH_CARTS" None s
              (Action "FETCH_CARTS_PENDING"
                 (VObj (<["clear" := VBool true]> (<["hasMore" := VBool false]>
                          (<["page" := VNum 2]> ∅)))) None)
              (<["clear" := VBool true]> (<["hasMore" := VBool false]>
                 (<["page" := VNum 2]> ∅))))
    as (s' & Hs & _ & Hmore & Hclear & Hrest & Hdata & _); [reflexivity | reflexivity |].
  exists s'. split; [exact Hs|]. split; [exact Hmore|].
  split; [rewrite Hdata; vm_compute; reflexivity|].
  split; [apply Hrest; [discriminate | discriminate | vm_compute; reflexivity]|].
  rewrite Hclear. vm_compute. reflexivity.
Defined.

(** X10.  ADD_LAST puts the payload after the last item and ADD_FIRST before
    the first; either adds one to [offset] (for an offset and a sum that are
    safe integers, where the addition of doubles is exact) and changes
    nothing else.  The payload is stored as it is, whatever it is. *)
Theorem paging_add_grows (p : string) (init : option (gmap string value))
    (s : gmap string value) (a : action) (items : list value) (n : Z) :
  s !! "data" = Some (VArr items) →
  s !! "offset" = Some (VNum n) →
  (type a = ActionTypeMaker.ADD_LAST p →
   ∃ s' : gmap string value,
     createAsyncPagingReducer p init (Some s) a = Return s'
     ∧ s' !! "data" = Some (VArr (items ++ [payload a]))
     ∧ (JS.safe_integer n → JS.safe_integer (n + 1) →
        s' !! "offset" = Some (VNum (n + 1)))
     ∧ ∀ k, k ≠ "data" → k ≠ "offset" → s' !! k = s !! k)
  ∧ (type a = ActionTypeMaker.ADD_FIRST p →
     ∃ s' : gmap string value,
       createAsyncPagingReducer p init (Some s) a = Return s'
       ∧ s' !! "data" = Some (VArr (payload a :: items))
       ∧ (JS.safe_integer n → JS.safe_integer (n + 1) →
          s' !! "offset" = Some (VNum (n + 1)))
       ∧ ∀ k, k ≠ "data" → k ≠ "offset" → s' !! k = s !! k).
Proof.
  intros Hdata Hoffset. split; intros Htype.
  - rewrite paging_on_ADD_LAST by done. simpl default.
    unfold paging_add_last, draft_data. rewrite (get_lookup _ _ _ Hdata). simpl mbind.
    unfold JS.get. rewrite lookup_insert_ne, Hoffset by done. simpl.
    eexists. split; [reflexivity|].
    split; [by simplify_map_eq|]. split; [intros _ _; by simplify_map_eq|].
    intros k ? ?. by simplify_map_eq.
  - rewrite paging_on_ADD_FIRST by done. simpl default.
    unfold paging_add_first, draft_data. rewrite (get_lookup _ _ _ Hdata). simpl mbind.
    unfold JS.get. rewrite lookup_insert_ne, Hoffset by done. simpl.
    eexists. split; [reflexivity|].
    split; [by simplify_map_eq|]. split; [intros _ _; by simplify_map_eq|].
    intros k ? ?. by simplify_map_eq.
Qed.

Lemma paging_add_grows_witness :
  let item (n : Z) : value := VObj (<["id" := VNum n]> ∅) in
  let s : gmap string value :=
    <["data" := VArr [item 1]]> (<["offset" := VNum 1]> defaultAsyncPagingState) in
  ∃ s' : gmap string value,
    createAsyncPagingReducer "FETCH_CARTS" None (Some s)
      (Action "FETCH_CARTS_ADD_FIRST" (item 3) None) = Return s'
    ∧ s' !! "data" = Some (VArr [item 3; item 1])
    ∧ s' !! "offset" = Some (VNum 2).
Proof.
  intros item s.
  destruct (paging_add_grows "FETCH_CARTS" None s
              (Action "FETCH_CARTS_ADD_FIRST" (item 3) None) [item 1] 1)
    as [_ Hfirst].
  - vm_compute. reflexivity.
  - vm_compute. reflexivity.
  - destruct (Hfirst eq_refl) as (s' & Hs & Hdata & Hoffset & _).
    exists s'. split; [exact Hs|]. split; [exact Hdata|].
    apply Hoffset; safe_integer_holds.
Defined.

(** X11.  UPDATE with an object payload replaces the first item whose [id]
    is the payload's [id] by a copy of the payload, in place: the items
    around it, [offset] and every other property stay.  When no item has
    that id the state is returned as it is. *)
Theorem paging_update_first_match (p : string) (init : option (gmap string value))
    (s : gmap string value) (a : action) (props : gmap string value)
    (items : list value) :
  type a = ActionTypeMaker.UPDATE p →
  payload a = VObj props →
  s !! "data" = Some (VArr items) →
  Forall is_item items →
  (∀ before x after,
     items = before ++ x :: after →
     Forall (λ y, ¬ has_id (JS.get props "id") y) before →
     has_id (JS.get props "id") x →
     createAsyncPagingReducer p init (Some s) a
     = Return (<["data" := VArr (before ++ VObj props :: after)]> s))
  ∧ (Forall (λ y, ¬ has_id (JS.get props "id") y) items →
     createAsyncPagingReducer p init (Some s) a = Return s).
Proof.
  intros Htype Hpayload Hdata Hitems.
  rewrite paging_on_UPDATE by done. simpl default.
  unfold paging_update, draft_data. rewrite Hpayload, (get_lookup _ _ _ Hdata).
  simpl JS.truthy. cbv iota. simpl mbind. unfold JS.findIndex.
  split.
  - intros before x after -> Hbefore Hx.
    rewrite (findIndex_id_first _ before x after Hitems Hbefore Hx : JS.findIndex_from _ _ 0 = _).
    simpl mbind. rewrite index_nonneg, set_index_middle. reflexivity.
  - intros Hnone.
    rewrite (findIndex_id_none _ items Hitems Hnone : JS.findIndex_from _ _ 0 = _).
    reflexivity.
Qed.

Lemma paging_update_first_match_witness :
  let item (n : Z) : value := VObj (<["id" := VNum n]> ∅) in
  let s : gmap string value :=
    <["data" := VArr [item 1; item 2]]> (<["offset" := VNum 2]> defaultAsyncPagingState) in
  let props : gmap string value := <["id" := VNum 2]> (<["name" := VStr "pen"]> ∅) in
  createAsyncPagingReducer "FETCH_CARTS" None (Some s)
    (Action "FETCH_CARTS_UPDATE" (VObj props) None)
  = Return (<["data" := VArr [item 1; VObj props]]> s)
  ∧ createAsyncPagingReducer "FETCH_CARTS" None (Some s)
      (Action "FETCH_CARTS_UPDATE" (item 7) None) = Return s.
Proof.
  intros item s props.
  assert (Hitem : ∀ n, is_item (item n)).
  { intros n. eexists. split; [reflexivity|]. vm_compute. reflexivity. }
  assert (Hid : ∀ n m, has_id (VNum m) (item n) → n = m).
  { intros n m (o & [= <-] & Hget). vm_compute in Hget. congruence. }
  split.
  - destruct (paging_update_first_match "FETCH_CARTS" None s
                (Action "FETCH_CARTS_UPDATE" (VObj props) None) props [item 1; item 2])
      as [Hfirst _].
    + reflexivity.
    + reflexivity.
    + vm_compute. reflexivity.
    + repeat constructor; apply Hitem.
    + apply (Hfirst [item 1] (item 2) []).
      * reflexivity.
      * repeat constructor. intros H%Hid. discriminate H.
      * eexists. split; [reflexivity|]. vm_compute. reflexivity.
  - destruct (paging_update_first_match "FETCH_CARTS" None s
                (Action "FETCH_CARTS_UPDATE" (item 7) None) (<["id" := VNum 7]> ∅)
                [item 1; item 2])
      as [_ Hnone].
    + reflexivity.
    + reflexivity.
    + vm_compute. reflexivity.
    + repeat constructor; apply Hitem.
    + apply Hnone. repeat constructor; intros H%Hid; discriminate H.
Defined.

(** X12.  REPLACE with an object payload [{ id, data }] puts [data] in the
    place of the first item whose [id] is the payload's [id], provided [data]
    is truthy and not an array; the new item need not carry that id.  With a
    falsy or array [data], or with no item of that id, the state is returned
    as it is. *)
Theorem paging_replace_first_match (p : string) (init : option (gmap string value))
    (s : gmap string value) (a : action) (props : gmap string value)
    (items : list value) :
  type a = ActionTypeMaker.REPLACE p →
  payload a = VObj props →
  s !! "data" = Some (VArr items) →
  Forall is_item items →
  (∀ before x after,
     items = before ++ x :: after →
     Forall (λ y, ¬ has_id (JS.get props "id") y) before →
     has_id (JS.get props "id") x →
     createAsyncPagingReducer p init (Some s) a
     = Return (match JS.get props "data" with
               | VArr _ => s
               | d => if JS.truthy d
                      then <["data" := VArr (before ++ d :: after)]> s
                      else s
               end))
  ∧ (Forall (λ y, ¬ has_id (JS.get props "id") y) items →
     createAsyncPagingReducer p init (Some s) a = Return s).
Proof.
  intros Htype Hpayload Hdata Hitems.
  rewrite paging_on_REPLACE by done. simpl default.
  unfold paging_replace, draft_data. rewrite Hpayload. simpl mbind.
  rewrite (get_lookup _ _ _ Hdata). simpl mbind. split.
  - intros before x after -> Hbefore Hx.
    rewrite (findIndex_id_first _ before x after Hitems Hbefore Hx).
    simpl mbind. rewrite index_nonneg, set_index_middle.
    destruct (JS.get props "data") as [ | |[]|n|d| |]; simpl; try reflexivity.
    + by destruct (n =? 0).
    + by case_bool_decide.
  - intros Hnone. rewrite (findIndex_id_none _ items Hitems Hnone). reflexivity.
Qed.

Lemma paging_replace_first_match_witness :
  let item (n : Z) : value := VObj (<["id" := VNum n]> ∅) in
  let s : gmap string value :=
    <["data" := VArr [item 1; item 2]]> (<["offset" := VNum 2]> defaultAsyncPagingState) in
  createAsyncPagingReducer "FETCH_CARTS" None (Some s)
    (Action "FETCH_CARTS_REPLACE"
       (VObj (<["id" := VNum 1]> (<["data" := item 9]> ∅))) None)
  = Return (<["data" := VArr [item 9; item 2]]> s)
  ∧ createAsyncPagingReducer "FETCH_CARTS" None (Some s)
      (Action "FETCH_CARTS_REPLACE"
         (VObj (<["id" := VNum 1]> (<["data" := VArr [item 9]]> ∅))) None)
    = Return s.
Proof.
  intros item s.
  assert (Hitem : ∀ n, is_item (item n)).
  { intros n. eexists. split; [reflexivity|]. vm_compute. reflexivity. }
  assert (Hitems : Forall is_item [item 1; item 2]) by (repeat constructor; apply Hitem).
  assert (Hdata : s !! "data" = Some (VArr [item 1; item 2])) by (vm_compute; reflexivity).
  split.
  - destruct (paging_replace_first_match "FETCH_CARTS" None s
                (Action "FETCH_CARTS_REPLACE"
                   (VObj (<["id" := VNum 1]> (<["data" := item 9]> ∅))) None)
                (<["id" := VNum 1]> (<["data" := item 9]> ∅)) [item 1; item 2]
                eq_refl eq_refl Hdata Hitems) as [Hfirst _].
    rewrite (Hfirst [] (item 1) [item 2] eq_refl).
    + vm_compute. reflexivity.
    + constructor.
    + eexists. split; [reflexivity|]. vm_compute. reflexivity.
  - destruct (paging_replace_first_match "FETCH_CARTS" None s
                (Action "FETCH_CARTS_REPLACE"
                   (VObj (<["id" := VNum 1]> (<["data" := VArr [item 9]]> ∅))) None)
                (<["id" := VNum 1]> (<["data" := VArr [item 9]]> ∅)) [item 1; item 2]
                eq_refl eq_refl Hdata Hitems) as [Hfirst _].
    rewrite (Hfirst [] (item 1) [item 2] eq_refl).
    + vm_compute. reflexivity.
    + constructor.
    + eexists. split; [reflexivity|]. vm_compute. reflexivity.
Defined.

(** X13.  FAIL on the paging reducer records the payload as [error] and
    clears [pending]; the loaded items, [offset], [hasMore] and every other
    property stay. *)
Theorem paging_fail_keeps_list (p : string) (init : option (gmap string value))
    (s : gmap string value) (a : action) :
  type a = ActionTypeMaker.FAIL p →
  ∃ s' : gmap string value,
    createAsyncPagingReducer p init (Some s) a = Return s'
    ∧ s' !! "error" = Some (payload a)
    ∧ s' !! "pending" = Some (VBool false)
    ∧ ∀ k, k ≠ "error" → k ≠ "pending" → s' !! k = s !! k.
Proof.
  intros Htype. rewrite paging_on_FAIL by done. unfold paging_fail.
  eexists. split; [reflexivity|].
  split; [by simplify_map_eq|]. split; [by simplify_map_eq|].
  intros k ? ?. by simplify_map_eq.
Qed.

Lemma paging_fail_keeps_list_witness :
  let s : gmap string value :=
    <["data" := VArr [VObj ∅]]> (<["offset" := VNum 1]> defaultAsyncPagingState) in
  ∃ s' : gmap string value,
    createAsyncPagingReducer "FETCH_CARTS" None (Some s)
      (Action "FETCH_CARTS_FAIL" (VStr "timeout") None) = Return s'
    ∧ s' !! "error" = Some (VStr "timeout")
    ∧ s' !! "data" = Some (VArr [VObj ∅])
    ∧ s' !! "hasMore" = Some (VBool true).
Proof.
  intros s.
  destruct (paging_fail_keeps_list "FETCH_CARTS" None s
              (Action "FETCH_CARTS_FAIL" (VStr "timeout") None))
    as (s' & Hs & Herror & _ & Hrest); [reflexivity|].
  exists s'. split; [exact Hs|]. split; [exact Herror|].
  rewrite !Hrest by discriminate. vm_compute. split; reflexivity.
Defined.

Lemma draft_data_throws (s : gmap string value) :
  (∀ items, JS.get s "data" ≠ VArr items) → draft_data s = Throw.
Proof.
  intros Hnot. unfold draft_data.
  destruct (JS.get s "data") eqn:Hd; try reflexivity. by destruct (Hnot items).
Qed.

(** X14.  Only UPDATE guards against a state whose [data] is not an array.
    On such a state ADD_LAST, ADD_FIRST, REMOVE and REPLACE throw whatever
    the payload, and so does SUCCESS with an object payload whose
    [firstOffset] is falsy; UPDATE returns the state as it is when [data] is
    falsy (missing, [null], ...) and throws when it is some other
    non-array. *)
Theorem paging_data_not_array (p : string) (init : option (gmap string value))
    (s : gmap string value) (a : action) :
  (∀ items, JS.get s "data" ≠ VArr items) →
  (type a ∈ [ActionTypeMaker.ADD_LAST p; ActionTypeMaker.ADD_FIRST p;
             ActionTypeMaker.REMOVE p; ActionTypeMaker.REPLACE p] →
   createAsyncPagingReducer p init (Some s) a = Throw)
  ∧ (type a = ActionTypeMaker.SUCCESS p →
     ∀ props, payload a = VObj props → JS.truthy (JS.get props "firstOffset") = false →
     createAsyncPagingReducer p init (Some s) a = Throw)
  ∧ (type a = ActionTypeMaker.UPDATE p →
     createAsyncPagingReducer p init (Some s) a
     = if JS.truthy (JS.get s "data") then Throw else Return s).
Proof.
  intros Hnot. pose proof (draft_data_throws s Hnot) as Hthrow.
  split; [|split].
  - intros Htype.
    repeat (apply elem_of_cons in Htype as [Htype|Htype]);
      [.. | by apply elem_of_nil in Htype].
    + rewrite paging_on_ADD_LAST by done. unfold paging_add_last. simpl default.
      by rewrite Hthrow.
    + rewrite paging_on_ADD_FIRST by done. unfold paging_add_first. simpl default.
      by rewrite Hthrow.
    + rewrite paging_on_REMOVE by done. unfold paging_remove. simpl default.
      by rewrite Hthrow.
    + rewrite paging_on_REPLACE by done. unfold paging_replace. simpl default.
      destruct (absent (payload a)) eqn:Habsent.
      * by rewrite (member_absent _ "id" Habsent).
      * destruct (member_present (payload a) "id" Habsent) as [y ->].
        simpl mbind. by rewrite Hthrow.
  - intros Htype props Hpayload Hfirst.
    rewrite paging_on_SUCCESS by done. unfold paging_success. simpl default.
    rewrite Hpayload. simpl mbind. simpl JS.own_props. rewrite Hfirst.
    by rewrite Hthrow.
  - intros Htype. rewrite paging_on_UPDATE by done. unfold paging_update.
    simpl default. destruct (JS.truthy (JS.get s "data")); [|reflexivity].
    by rewrite Hthrow.
Qed.

Lemma paging_data_not_array_witness :
  let s : gmap string value := <["offset" := VNum 0]> ∅ in
  createAsyncPagingReducer "FETCH_CARTS" None (Some s)
    (Action "FETCH_CARTS_ADD_LAST" (VObj ∅) None) = Throw
  ∧ createAsyncPagingReducer "FETCH_CARTS" None (Some s)
      (Action "FETCH_CARTS_UPDATE" (VObj ∅) None) = Return s.
Proof.
  intros s.
  assert (Hnot : ∀ items, JS.get s "data" ≠ VArr items) by (intros items; discriminate).
  split.
  - pose proof (paging_data_not_array "FETCH_CARTS" None s
                  (Action "FETCH_CARTS_ADD_LAST" (VObj ∅) None) Hnot) as (Hadd & _).
    apply Hadd. apply elem_of_cons. left. reflexivity.
  - pose proof (paging_data_not_array "FETCH_CARTS" None s
                  (Action "FETCH_CARTS_UPDATE" (VObj ∅) None) Hnot) as (_ & _ & Hupdate).
    apply (Hupdate eq_refl).
Defined.

(** Among items, either some first one has the id or none has. *)
Lemma first_match_or_none (v : value) (items : list value) :
  Forall is_item items →
  (∃ before x after,
     items = before ++ x :: after
     ∧ Forall (λ y, ¬ has_id v y) before ∧ has_id v x)
  ∨ Forall (λ y, ¬ has_id v y) items.
Proof.
  induction 1 as [|x items Hx _ IH]; [by right|].
  destruct (id_callback_item v x Hx) as [[_ Hhas] | [_ Hnot]].
  - left. by exists [], x, items.
  - destruct IH as [(before & y & after & -> & Hbefore & Hy) | Hnone].
    + left. exists (x :: before), y, after.
      split; [reflexivity|]. split; [by constructor | exact Hy].
    + right. by constructor.
Qed.

Lemma is_item_has_id (x : value) (props : gmap string value) :
  is_item x → has_id (JS.get props "id") x → is_item (VObj props).
Proof.
  intros (o & -> & Hprim) (o' & [= <-] & Hid).
  exists props. split; [reflexivity|]. by rewrite <- Hid.
Qed.

Lemma offset_tracks_intro (s : gmap string value) (items : list value) (n : Z) :
  Forall is_item items →
  n = Z.of_nat (length items) →
  offset_tracks (<["offset" := VNum n]> (<["data" := VArr items]> s)).
Proof.
  intros Hitems ->. exists items. by simplify_map_eq.
Qed.

Lemma offset_tracks_insert_other (k : string) (v : value) (s : gmap string value) :
  k ≠ "data" → k ≠ "offset" → offset_tracks s → offset_tracks (<[k := v]> s).
Proof.
  intros ? ? (items & Hdata & Hitems & Hoffset).
  exists items. by rewrite !lookup_insert_ne.
Qed.

(** X15.  [offset] counts the loaded items, and well-formed actions keep it
    so.  From a state whose [data] is an array of items and whose [offset]
    is its length, each of the following yields such a state again: ADD_LAST
    and ADD_FIRST of an item; UPDATE with an object payload; REPLACE with an
    object payload whose [data] is falsy, an array or an item; REMOVE and
    FAIL with any payload; SUCCESS with an object payload that carries items
    and no [offset] of its own; PENDING with an object payload that carries
    neither [data] nor [offset]; RESET when the reducer's default state is
    such a state. *)
Theorem paging_offset_tracks_data (p : string) (init : option (gmap string value))
    (s : gmap string value) (a : action) :
  offset_tracks s →
  type a ∈ paging_types p →
  (type a ∈ [ActionTypeMaker.ADD_LAST p; ActionTypeMaker.ADD_FIRST p] →
   is_item (payload a)) →
  (type a = ActionTypeMaker.UPDATE p → ∃ props, payload a = VObj props) →
  (type a = ActionTypeMaker.REPLACE p →
   ∃ props, payload a = VObj props
            ∧ (JS.truthy (JS.get props "data") = false
               ∨ (∃ l, JS.get props "data" = VArr l)
               ∨ is_item (JS.get props "data"))) →
  (type a = ActionTypeMaker.SUCCESS p →
   ∃ props, payload a = VObj props
            ∧ props !! "offset" = None
            ∧ Forall is_item (match JS.get props "data" with VArr l => l | _ => [] end)) →
  (type a = ActionTypeMaker.PENDING p →
   ∃ props, payload a = VObj props ∧ props !! "data" = None ∧ props !! "offset" = None) →
  (type a = ActionTypeMaker.RESET p → offset_tracks (paging_defaultState init)) →
  ∃ s' : gmap string value,
    createAsyncPagingReducer p init (Some s) a = Return s' ∧ offset_tracks s'.
Proof.
  intros (items & Hdata & Hitems & Hoffset) Htype Hadd Hupdate Hreplace Hsuccess
    Hpending Hreset.
  assert (Hoff : ∀ l, JS.get (<["data" := VArr l]> s) "offset"
                      = VNum (Z.of_nat (length items))).
  { intros l. apply get_lookup. by rewrite lookup_insert_ne. }
  assert (Hsame : offset_tracks s) by (by exists items).
  split_types Htype.
  - destruct (Hpending Htype) as (props & Hpayload & Hpd & Hpo).
    rewrite paging_on_PENDING by done. simpl default.
    unfold paging_pending. rewrite Hpayload. simpl mbind. simpl JS.own_props.
    eexists. split; [reflexivity|].
    do 2 (apply offset_tracks_insert_other; [done..|]).
    rewrite assign_all_union.
    destruct (JS.truthy (JS.get props "clear")).
    + exists []. split; [|split; [constructor|]].
      * rewrite lookup_union_r by (by rewrite lookup_delete_ne).
        by simplify_map_eq.
      * rewrite lookup_union_r by (by rewrite lookup_delete_ne).
        by simplify_map_eq.
    + exists items. split; [|split; [done|]].
      * by rewrite lookup_union_r by (by rewrite lookup_delete_ne).
      * by rewrite lookup_union_r by (by rewrite lookup_delete_ne).
  - destruct (Hsuccess Htype) as (props & Hpayload & Hpo & Hnew).
    rewrite paging_on_SUCCESS by done. simpl default.
    unfold paging_success, draft_data. rewrite Hpayload. simpl mbind.
    simpl JS.own_props. rewrite (get_lookup _ _ _ Hdata).
    set (newData := match JS.get props "data" with VArr l => l | _ => [] end) in *.
    assert (Hrd : delete "firstOffset" (delete "data" props) !! "data" = None).
    { rewrite lookup_delete_ne by done. apply lookup_delete_eq. }
    assert (Hro : delete "firstOffset" (delete "data" props) !! "offset" = None).
    { by rewrite !lookup_delete_ne. }
    destruct (JS.truthy (JS.get props "firstOffset")); simpl mbind.
    + eexists. split; [reflexivity|].
      apply offset_tracks_insert_other; [done..|]. rewrite assign_all_union.
      exists newData. rewrite !lookup_union_r by done. by simplify_map_eq.
    + rewrite Hoff. simpl. eexists. split; [reflexivity|].
      apply offset_tracks_insert_other; [done..|]. rewrite assign_all_union.
      exists (items ++ newData). rewrite !lookup_union_r by done.
      split; [by simplify_map_eq|]. split; [by apply Forall_app|].
      rewrite length_app, Nat2Z.inj_add. by simplify_map_eq.
  - rewrite paging_on_ADD_LAST by done. simpl default.
    unfold paging_add_last, draft_data. rewrite (get_lookup _ _ _ Hdata). simpl mbind.
    rewrite Hoff. simpl. eexists. split; [reflexivity|].
    apply offset_tracks_intro.
    + apply Forall_app. split; [done|]. constructor; [|done].
      apply Hadd. apply elem_of_cons. by left.
    + rewrite length_app. simpl. lia.
  - rewrite paging_on_ADD_FIRST by done. simpl default.
    unfold paging_add_first, draft_data. rewrite (get_lookup _ _ _ Hdata). simpl mbind.
    rewrite Hoff. simpl. eexists. split; [reflexivity|].
    apply offset_tracks_intro.
    + constructor; [|done]. apply Hadd. apply elem_of_cons. right.
      apply elem_of_cons. by left.
    + simpl length. lia.
  - destruct (Hupdate Htype) as (props & Hpayload).
    rewrite paging_on_UPDATE by done. simpl default.
    unfold paging_update, draft_data. rewrite Hpayload, (get_lookup _ _ _ Hdata).
    simpl JS.truthy. cbv iota. simpl mbind.
    destruct (first_match_or_none (JS.get props "id") items Hitems)
      as [(before & x & after & Heq & Hbefore & Hx) | Hnone].
    + subst items.
      rewrite (findIndex_id_first _ before x after Hitems Hbefore Hx).
      simpl mbind. rewrite index_nonneg, set_index_middle.
      eexists. split; [reflexivity|]. exists (before ++ VObj props :: after).
      split; [by simplify_map_eq|].
      split.
      * apply Forall_app in Hitems as [Hib Hia].
        apply Forall_cons in Hia as [Hix Hia].
        apply Forall_app. split; [done|]. constructor; [|done].
        by eapply is_item_has_id.
      * rewrite lookup_insert_ne, Hoffset by done.
        by rewrite !length_app.
    + rewrite (findIndex_id_none _ items Hitems Hnone). by exists s.
  - destruct (Hreplace Htype) as (props & Hpayload & Hd).
    rewrite paging_on_REPLACE by done. simpl default.
    unfold paging_replace, draft_data. rewrite Hpayload. simpl mbind.
    rewrite (get_lookup _ _ _ Hdata). simpl mbind.
    destruct (first_match_or_none (JS.get props "id") items Hitems)
      as [(before & x & after & Heq & Hbefore & Hx) | Hnone].
    + subst items.
      rewrite (findIndex_id_first _ before x after Hitems Hbefore Hx).
      simpl mbind. rewrite index_nonneg, set_index_middle.
      destruct Hd as [Hfalsy | [[l Harr] | Hitem]].
      * rewrite Hfalsy. simpl. by exists s.
      * rewrite Harr. simpl. by exists s.
      * destruct Hitem as (o & Ho & Hprim). rewrite Ho. simpl.
        eexists. split; [reflexivity|].
        exists (before ++ VObj o :: after).
        split; [by simplify_map_eq|].
        split.
        { apply Forall_app in Hitems as [Hib Hia].
          apply Forall_cons in Hia as [Hix Hia].
          apply Forall_app. split; [done|]. constructor; [|done]. by exists o. }
        rewrite lookup_insert_ne, Hoffset by done.
        by rewrite !length_app.
    + rewrite (findIndex_id_none _ items Hitems Hnone). by exists s.
  - destruct (first_match_or_none (payload a) items Hitems)
      as [(before & x & after & Heq & Hbefore & Hx) | Hnone].
    + rewrite paging_on_REMOVE by done. simpl default.
      unfold paging_remove, draft_data. rewrite (get_lookup _ _ _ Hdata). simpl mbind.
      subst items.
      rewrite (findIndex_id_first _ before x after Hitems Hbefore Hx).
      simpl mbind. rewrite index_nonneg, splice1_middle, Hoff. simpl.
      eexists. split; [reflexivity|].
      apply Forall_app in Hitems as [Hib Hia].
      apply Forall_cons in Hia as [Hix Hia].
      apply offset_tracks_intro; [by apply Forall_app|].
      rewrite !length_app. simpl. lia.
    + rewrite paging_on_REMOVE by done. simpl default.
      unfold paging_remove, draft_data. rewrite (get_lookup _ _ _ Hdata). simpl mbind.
      rewrite (findIndex_id_none _ items Hitems Hnone). by exists s.
  - rewrite paging_on_FAIL by done. unfold paging_fail.
    eexists. split; [reflexivity|].
    by do 2 (apply offset_tracks_insert_other; [done..|]).
  - rewrite paging_on_RESET by done. eexists. split; [reflexivity|]. by apply Hreset.
Qed.

Ltac other_type := let H := fresh in intros H; vm_compute in H; discriminate H.

Ltac not_listed :=
  let H := fresh in
  intros H; repeat (apply elem_of_cons in H as [H|H]; [vm_compute in H; discriminate H|]);
  by apply elem_of_nil in H.

Lemma paging_offset_tracks_data_witness :
  let item (n : Z) : value := VObj (<["id" := VNum n]> ∅) in
  let s : gmap string value :=
    <["data" := VArr [item 1; item 2]]> (<["offset" := VNum 2]> defaultAsyncPagingState) in
  (∃ s', createAsyncPagingReducer "FETCH_CARTS" None (Some s)
           (Action "FETCH_CARTS_REMOVE" (VNum 1) None) = Return s'
         ∧ offset_tracks s')
  ∧ (∃ s', createAsyncPagingReducer "FETCH_CARTS" None (Some s)
             (Action "FETCH_CARTS_SUCCESS"
                (VObj (<["data" := VArr [item 3]]> ∅)) None) = Return s'
           ∧ offset_tracks s').
Proof.
  intros item s.
  assert (Hitem : ∀ n, is_item (item n)).
  { intros n. eexists. split; [reflexivity|]. vm_compute. reflexivity. }
  assert (Htracks : offset_tracks s).
  { exists [item 1; item 2]. split; [vm_compute; reflexivity|].
    split; [repeat constructor; apply Hitem | vm_compute; reflexivity]. }
  split.
  - apply (paging_offset_tracks_data "FETCH_CARTS" None s
             (Action "FETCH_CARTS_REMOVE" (VNum 1) None) Htracks).
    + do 6 (apply elem_of_cons; right). apply elem_of_cons. left. reflexivity.
    + not_listed.
    + other_type.
    + other_type.
    + other_type.
    + other_type.
    + other_type.
  - apply (paging_offset_tracks_data "FETCH_CARTS" None s
             (Action "FETCH_CARTS_SUCCESS" (VObj (<["data" := VArr [item 3]]> ∅)) None)
             Htracks).
    + apply elem_of_cons. right. apply elem_of_cons. left. reflexivity.
    + not_listed.
    + other_type.
    + other_type.
    + intros _. eexists. split; [reflexivity|]. split; [vm_compute; reflexivity|].
      replace (JS.get (<["data" := VArr [item 3]]> ∅) "data") with (VArr [item 3])
        by (vm_compute; reflexivity).
      repeat constructor. apply Hitem.
    + other_type.
    + other_type.
Defined.

(** X16.  REMOVE undoes an ADD, on a state whose [offset] and its successor
    are safe integers (beyond them adding one and subtracting one in doubles
    do not cancel).  After ADD_FIRST of an item, REMOVE with that item's id
    returns a state with the properties of the one ADD_FIRST started from,
    even when other items share the id, since the new item is the first
    match.  After ADD_LAST the same holds provided no earlier item has that
    id. *)
Theorem paging_add_then_remove (p : string) (init : option (gmap string value))
    (s o : gmap string value) (add rem : action) (items : list value) (n : Z) :
  s !! "data" = Some (VArr items) →
  Forall is_item items →
  s !! "offset" = Some (VNum n) →
  JS.safe_integer n →
  JS.safe_integer (n + 1) →
  payload add = VObj o →
  is_item (VObj o) →
  type rem = ActionTypeMaker.REMOVE p →
  payload rem = JS.get o "id" →
  (type add = ActionTypeMaker.ADD_FIRST p →
   ∃ s1 : gmap string value,
     createAsyncPagingReducer p init (Some s) add = Return s1
     ∧ createAsyncPagingReducer p init (Some s1) rem = Return s)
  ∧ (type add = ActionTypeMaker.ADD_LAST p →
     Forall (λ y, ¬ has_id (JS.get o "id") y) items →
     ∃ s1 : gmap string value,
       createAsyncPagingReducer p init (Some s) add = Return s1
       ∧ createAsyncPagingReducer p init (Some s1) rem = Return s).
Proof.
  intros Hdata Hitems Hoffset _ _ Hadd Hitem Hrem Hid.
  assert (Hhas : has_id (JS.get o "id") (VObj o)) by (by exists o).
  assert (Hback : ∀ l,
    <["offset" := VNum (n + 1 - 1)]>
      (<["data" := VArr items]> (<["offset" := VNum (n + 1)]> (<["data" := VArr l]> s)))
    = s).
  { intros l. apply map_eq. intros k.
    destruct (decide (k = "offset")) as [->|?]; [|destruct (decide (k = "data")) as [->|?]];
      simplify_map_eq; [f_equal; f_equal; lia | done..]. }
  split.
  - intros Htype. rewrite paging_on_ADD_FIRST by done. simpl default.
    unfold paging_add_first, draft_data. rewrite (get_lookup _ _ _ Hdata). simpl mbind.
    unfold JS.get at 1. rewrite lookup_insert_ne, Hoffset, Hadd by done. simpl.
    eexists. split; [reflexivity|].
    rewrite paging_on_REMOVE by done. simpl default.
    unfold paging_remove, draft_data.
    rewrite (get_lookup _ "data" (VArr (VObj o :: items))) by (by simplify_map_eq).
    simpl mbind. rewrite Hid.
    rewrite (findIndex_id_first _ [] (VObj o) items);
      [|by constructor | constructor | done].
    simpl mbind. change (JS.splice1 _ (VObj o :: items)) with items.
    rewrite (get_lookup _ "offset" (VNum (n + 1))) by (by simplify_map_eq).
    simpl. by rewrite Hback.
  - intros Htype Hfresh. rewrite paging_on_ADD_LAST by done. simpl default.
    unfold paging_add_last, draft_data. rewrite (get_lookup _ _ _ Hdata). simpl mbind.
    unfold JS.get at 1. rewrite lookup_insert_ne, Hoffset, Hadd by done. simpl.
    eexists. split; [reflexivity|].
    rewrite paging_on_REMOVE by done. simpl default.
    unfold paging_remove, draft_data.
    rewrite (get_lookup _ "data" (VArr (items ++ [VObj o]))) by (by simplify_map_eq).
    simpl mbind. rewrite Hid.
    rewrite (findIndex_id_first _ items (VObj o) []);
      [|apply Forall_app; split; [done | by constructor] | done | done].
    simpl mbind. rewrite index_nonneg, splice1_middle, app_nil_r.
    rewrite (get_lookup _ "offset" (VNum (n + 1))) by (by simplify_map_eq).
    simpl. by rewrite Hback.
Qed.

Lemma paging_add_then_remove_witness :
  let item (n : Z) : gmap string value := <["id" := VNum n]> ∅ in
  let s : gmap string value :=
    <["data" := VArr [VObj (item 1)]]> (<["offset" := VNum 1]> defaultAsyncPagingState) in
  ∃ s1 : gmap string value,
    createAsyncPagingReducer "FETCH_CARTS" None (Some s)
      (Action "FETCH_CARTS_ADD_LAST" (VObj (item 3)) None) = Return s1
    ∧ createAsyncPagingReducer "FETCH_CARTS" None (Some s1)
        (Action "FETCH_CARTS_REMOVE" (VNum 3) None) = Return s.
Proof.
  intros item s.
  assert (Hitem : ∀ n, is_item (VObj (item n))).
  { intros n. eexists. split; [reflexivity|]. vm_compute. reflexivity. }
  destruct (paging_add_then_remove "FETCH_CARTS" None s (item 3)
              (Action "FETCH_CARTS_ADD_LAST" (VObj (item 3)) None)
              (Action "FETCH_CARTS_REMOVE" (VNum 3) None) [VObj (item 1)] 1)
    as [_ Hlast].
  - vm_compute. reflexivity.
  - repeat constructor. apply Hitem.
  - vm_compute. reflexivity.
  - safe_integer_holds.
  - safe_integer_holds.
  - reflexivity.
  - apply Hitem.
  - reflexivity.
  - vm_compute. reflexivity.
  - apply (Hlast eq_refl). repeat constructor.
    intros (o' & [= <-] & Hget). vm_compute in Hget. discriminate Hget.
Defined.

(** ** Reducers of different prefixes *)

Lemma append_empty_r (p : string) : String.append p "" = p.
Proof.
  induction p as [|c p IH]; [reflexivity|].
  change (String c (String.append p "") = String c p). by rewrite IH.
Qed.

Lemma append_eq_split (p q s t : string) :
  String.append p s = String.append q t →
  ∃ u, (p = String.append q u ∧ t = String.append u s)
       ∨ (q = String.append p u ∧ s = String.append u t).
Proof.
  revert q. induction p as [|c p IH]; intros q Heq.
  - exists q. right. by split.
  - destruct q as [|d q].
    + exists (String c p). left. by split.
    + simpl in Heq. injection Heq as -> Heq.
      destruct (IH q Heq) as [u [[-> ->] | [-> ->]]]; exists u; [left | right]; done.
Qed.

(** No lifecycle suffix ends with another one. *)
Lemma suffix_not_nested (s t u : string) :
  s ∈ suffixes → t ∈ suffixes → t = String.append u s → u = "".
Proof.
  intros Hs Ht Heq. unfold suffixes in *.
  repeat (apply elem_of_cons in Hs as [->|Hs]); [.. | by apply elem_of_nil in Hs];
    (repeat (apply elem_of_cons in Ht as [->|Ht]); [.. | by apply elem_of_nil in Ht]);
    repeat (destruct u as [|? u]; simpl in Heq;
            [try reflexivity; try discriminate Heq | try discriminate Heq; injection Heq as ? Heq]).
Qed.

Lemma derived_type_prefix (p q s t : string) :
  s ∈ suffixes → t ∈ suffixes → String.append p s = String.append q t → p = q.
Proof.
  intros Hs Ht Heq.
  destruct (append_eq_split p q s t Heq) as [u [[-> Hu] | [-> Hu]]].
  - rewrite (suffix_not_nested s t u Hs Ht Hu). apply append_empty_r.
  - rewrite (suffix_not_nested t s u Ht Hs Hu). symmetry. apply append_empty_r.
Qed.

Lemma paging_types_suffixes (p t : string) :
  t ∈ paging_types p → ∃ s, s ∈ suffixes ∧ t = String.append p s.
Proof.
  intros Hin. unfold paging_types in Hin.
  repeat (apply elem_of_cons in Hin as [->|Hin]); [.. | by apply elem_of_nil in Hin];
    eexists; (split; [|reflexivity]); unfold suffixes; set_solver.
Qed.

(** A type derived from one prefix is derived from no other prefix. *)
Lemma not_derived_from_other (p q t : string) :
  p ≠ q → t ∈ paging_types q → t ∉ paging_types p.
Proof.
  intros Hne Hq Hp.
  destruct (paging_types_suffixes q t Hq) as (s1 & Hs1 & ->).
  destruct (paging_types_suffixes p _ Hp) as (s2 & Hs2 & Heq).
  apply Hne. symmetry. by apply (derived_type_prefix q p s1 s2).
Qed.

Ltac in_list := apply elem_of_cons; first [left; reflexivity | right; in_list].

Ltac skip_switch Hnot :=
  unfold createAsyncReducer, createAsyncPagingReducer; cbv zeta;
  rewrite !decide_False
    by (let Heq := fresh in
        intros Heq; apply Hnot; rewrite Heq; cbv [paging_types]; in_list);
  reflexivity.

(** X17.  Reducers made for different prefixes do not hear each other: an
    action of any type derived from the prefix [q] is ignored, the state
    returned as it is, by the simple and by the paging reducer of every
    other prefix [p], also when one prefix extends the other. *)
Theorem reducers_ignore_other_prefixes (p q : string) (init : option (gmap string value))
    (s : gmap string value) (a : action) :
  p ≠ q →
  type a ∈ paging_types q →
  createAsyncReducer p init (Some s) a = Return s
  ∧ createAsyncPagingReducer p init (Some s) a = Return s.
Proof.
  intros Hne Hq.
  pose proof (not_derived_from_other p q (type a) Hne Hq) as Hnot.
  split; skip_switch Hnot.
Qed.

Lemma reducers_ignore_other_prefixes_witness :
  let s : gmap string value := <["data" := VArr []]> (<["offset" := VNum 0]> ∅) in
  createAsyncReducer "FETCH_CART" None (Some s)
    (Action "FETCH_CART_ADD_FAIL" (VStr "timeout") None) = Return s
  ∧ createAsyncPagingReducer "FETCH_CART" None (Some s)
      (Action "FETCH_CART_ADD_FAIL" (VStr "timeout") None) = Return s.
Proof.
  intros s.
  apply (reducers_ignore_other_prefixes "FETCH_CART" "FETCH_CART_ADD" None s
           (Action "FETCH_CART_ADD_FAIL" (VStr "timeout") None)).
  - discriminate.
  - do 7 (apply elem_of_cons; right). apply elem_of_cons. left. reflexivity.
Defined.

(** ** createReducerBatch and createReducerGroup *)

(** X18.  A batch reducer is a setter.  On an action of its type it returns
    the payload whatever the state was; on any other action it returns a
    defined state as it is and replaces an undefined one by the configured
    initial state (when that is truthy).  So an action of its type with an
    undefined payload makes the next unrelated call start over from the
    initial state. *)
Theorem batch_reducer_is_setter (init : gmap string (string * value))
    (key actionType : string) (v : value) :
  init !! key = Some (actionType, v) →
  ∃ reducer : value → action → value,
    createReducerBatch init !! key = Some reducer
    ∧ (∀ state a, type a = actionType → reducer state a = payload a)
    ∧ (∀ state a, type a ≠ actionType → state ≠ VUndefined → reducer state a = state)
    ∧ (∀ a, type a ≠ actionType → JS.truthy v = true → reducer VUndefined a = v)
    ∧ (∀ state a b, type a = actionType → payload a = VUndefined →
                    type b ≠ actionType →
                    reducer (reducer state a) b = JS.or v VNull).
Proof.
  intros Hkey. rewrite lookup_createReducerBatch, Hkey. simpl.
  eexists. split; [reflexivity|]. simpl. split; [|split; [|split]].
  - intros state a ->. by rewrite decide_True.
  - intros state a Hne Hdef. rewrite decide_False by done. by destruct state.
  - intros a Hne Htruthy. rewrite decide_False by done.
    unfold JS.or. by rewrite Htruthy.
  - intros state a b Ha Hpayload Hb.
    rewrite (decide_True _ _ Ha), Hpayload. by rewrite decide_False.
Qed.

Lemma batch_reducer_is_setter_witness :
  ∃ reducer : value → action → value,
    createReducerBatch (<["profile" := ("SET_PROFILE", VObj ∅)]> ∅) !! "profile"
    = Some reducer
    ∧ reducer (VObj ∅) (Action "SET_PROFILE" (VStr "ann") None) = VStr "ann"
    ∧ reducer VUndefined (Action "@@INIT" VUndefined None) = VObj ∅.
Proof.
  destruct (batch_reducer_is_setter (<["profile" := ("SET_PROFILE", VObj ∅)]> ∅)
              "profile" "SET_PROFILE" (VObj ∅))
    as (r & Hr & Hset & _ & Hinit & _); [reflexivity|].
  exists r. split; [exact Hr|]. split.
  - apply (Hset (VObj ∅) (Action "SET_PROFILE" (VStr "ann") None)). reflexivity.
  - apply (Hinit (Action "@@INIT" VUndefined None)); [discriminate | reflexivity].
Defined.

Lemma lookup_foldl_insert_other (g : IReducerGroupNode → value)
    (options : list (string * IReducerGroupNode)) (acc : gmap string value) (key : string) :
  key ∉ options.*1 →
  foldl (λ d kv, <[kv.1 := g kv.2]> d) acc options !! key = acc !! key.
Proof.
  revert acc. induction options as [|[k node] options IH]; intros acc Hnot; [done|].
  simpl in *. apply not_elem_of_cons in Hnot as [Hne Hnot].
  rewrite IH by done. by apply lookup_insert_ne.
Qed.

Lemma lookup_foldl_insert (g : IReducerGroupNode → value)
    (options : list (string * IReducerGroupNode)) (acc : gmap string value)
    (key : string) (node : IReducerGroupNode) :
  NoDup options.*1 →
  (key, node) ∈ options →
  foldl (λ d kv, <[kv.1 := g kv.2]> d) acc options !! key = Some (g node).
Proof.
  revert acc. induction options as [|[k n] options IH]; intros acc Hdup Hin.
  - by apply elem_of_nil in Hin.
  - simpl in *. apply NoDup_cons in Hdup as [Hk Hdup].
    apply elem_of_cons in Hin as [[= <- <-] | Hin].
    + rewrite lookup_foldl_insert_other by done. apply lookup_insert_eq.
    + by apply IH.
Qed.

Lemma group_update_none (options : list (string * IReducerGroupNode)) (state : value)
    (a : action) :
  Forall (λ kv, node_type kv.2 ≠ type a) options →
  group_update options state a = None.
Proof.
  induction 1 as [|[k n] options Hne _ IH]; [done|].
  simpl in *. by rewrite decide_False.
Qed.

Lemma group_update_first (before : list (string * IReducerGroupNode)) (key : string)
    (node : IReducerGroupNode) (after : list (string * IReducerGroupNode))
    (state : value) (a : action) :
  Forall (λ kv, node_type kv.2 ≠ type a) before →
  node_type node = type a →
  group_update (before ++ (key, node) :: after) state a
  = group_update [(key, node)] state a.
Proof.
  intros Hbefore Hnode. induction Hbefore as [|[k n] before Hne _ IH]; simpl in *.
  - by rewrite !decide_True.
  - by rewrite decide_False.
Qed.

(** X19.  A group reducer called with an undefined state and an action that
    neither an entry nor the reset option claims returns the initial state:
    one field per configured key, holding the key's [initState] when that is
    truthy and [null] otherwise, and no other field. *)
Theorem group_initial_state (options : list (string * IReducerGroupNode))
    (resetOption : option IReducerGroupResetNode) (a : action) :
  NoDup options.*1 →
  Forall (λ kv, node_type kv.2 ≠ type a) options →
  (∀ reset, resetOption = Some reset → reset_type reset ≠ type a) →
  ∃ o : gmap string value,
    createReducerGroup options resetOption VUndefined a = Return (VObj o)
    ∧ (∀ key node, (key, node) ∈ options →
         o !! key = Some (if JS.truthy (initState node) then initState node else VNull))
    ∧ (∀ key, key ∉ options.*1 → o !! key = None).
Proof.
  intros Hdup Hnone Hreset. exists (mainInitialState options).
  split; [|split].
  - unfold createReducerGroup. simpl default_param.
    rewrite group_update_none by done.
    destruct resetOption as [reset|]; [|done].
    by rewrite decide_False by (by apply Hreset).
  - intros key node Hin. unfold mainInitialState.
    by rewrite (lookup_foldl_insert (λ n, JS.or (initState n) VNull) _ _ key node).
  - intros key Hnot. unfold mainInitialState.
    by rewrite (lookup_foldl_insert_other (λ n, JS.or (initState n) VNull)).
Qed.

Lemma group_initial_state_witness :
  let options : list (string * IReducerGroupNode) :=
    [("mute", GroupNode "SET_MUTE" (VBool false) None);
     ("profile", GroupNode "SET_PROFILE" (VObj ∅) None)] in
  ∃ o : gmap string value,
    createReducerGroup options (Some (ResetNode "RESET_ALL" None)) VUndefined
      (Action "@@INIT" VUndefined None) = Return (VObj o)
    ∧ o !! "mute" = Some VNull
    ∧ o !! "profile" = Some (VObj ∅)
    ∧ o !! "other" = None.
Proof.
  intros options.
  destruct (group_initial_state options (Some (ResetNode "RESET_ALL" None))
              (Action "@@INIT" VUndefined None)) as (o & Ho & Hkeys & Hother).
  - apply (bool_decide_unpack _). vm_compute. exact I.
  - repeat constructor; discriminate.
  - intros reset [= <-]. discriminate.
  - exists o. split; [exact Ho|].
    split; [apply (Hkeys "mute" (GroupNode "SET_MUTE" (VBool false) None));
            apply elem_of_cons; by left|].
    split; [apply (Hkeys "profile" (GroupNode "SET_PROFILE" (VObj ∅) None));
            apply elem_of_cons; right; apply elem_of_cons; by left|].
    apply Hother. simpl. intros Hin.
    repeat (apply elem_of_cons in Hin as [Hin|Hin]; [discriminate Hin|]).
    by apply elem_of_nil in Hin.
Defined.

(** X20.  The first entry, in key order, whose type is the action's decides,
    whatever the later entries and the reset option say.  On an object state
    it assigns its own key only: the payload, or what its [onUpdate] returns
    for the state and the action, and when [onUpdate] throws so does the
    reducer.  On a state that is a boolean, number or string the payload
    replaces the state as a whole and [onUpdate] is not consulted. *)
Theorem group_first_match_decides (before after : list (string * IReducerGroupNode))
    (key : string) (node : IReducerGroupNode)
    (resetOption : option IReducerGroupResetNode) (a : action) :
  Forall (λ kv, node_type kv.2 ≠ type a) before →
  node_type node = type a →
  let reducer := createReducerGroup (before ++ (key, node) :: after) resetOption in
  (∀ o, onUpdate node = None →
        reducer (VObj o) a = Return (VObj (<[key := payload a]> o)))
  ∧ (∀ o f v, onUpdate node = Some f → f (VObj o) a = Return v →
              reducer (VObj o) a = Return (VObj (<[key := v]> o)))
  ∧ (∀ o f, onUpdate node = Some f → f (VObj o) a = Throw →
            reducer (VObj o) a = Throw)
  ∧ (∀ state, (∃ b, state = VBool b) ∨ (∃ n, state = VNum n) ∨ (∃ t, state = VStr t) →
              reducer state a = Return (payload a)).
Proof.
  intros Hbefore Hnode reducer. subst reducer. unfold createReducerGroup.
  split; [|split; [|split]].
  - intros o Hup. simpl default_param. rewrite group_update_first by done.
    simpl. by rewrite decide_True, Hup.
  - intros o f v Hup Hf. simpl default_param. rewrite group_update_first by done.
    simpl. by rewrite decide_True, Hup, Hf.
  - intros o f Hup Hf. simpl default_param. rewrite group_update_first by done.
    simpl. by rewrite decide_True, Hup, Hf.
  - intros state [[b ->] | [[n ->] | [t ->]]]; simpl default_param;
      rewrite group_update_first by done; simpl; by rewrite decide_True.
Qed.

Lemma group_first_match_decides_witness :
  let count : callback := λ state a,
    match state with
    | VObj o => JS.add (JS.get o "count") (payload a)
    | _ => Throw
    end in
  let options : list (string * IReducerGroupNode) :=
    [("mute", GroupNode "SET_MUTE" (VBool false) None);
     ("count", GroupNode "ADD" (VNum 0) (Some count));
     ("total", GroupNode "ADD" (VNum 0) None)] in
  let o : gmap string value :=
    <["mute" := VNull]> (<["count" := VNum 2]> (<["total" := VNum 0]> ∅)) in
  createReducerGroup options (Some (ResetNode "ADD" None)) (VObj o)
    (Action "ADD" (VNum 3) None)
  = Return (VObj (<["count" := VNum 5]> o)).
Proof.
  intros count options o.
  pose proof (group_first_match_decides
                [("mute", GroupNode "SET_MUTE" (VBool false) None)]
                [("total", GroupNode "ADD" (VNum 0) None)]
                "count" (GroupNode "ADD" (VNum 0) (Some count))
                (Some (ResetNode "ADD" None)) (Action "ADD" (VNum 3) None))
    as Hmatch.
  destruct Hmatch as (_ & Hcall & _).
  - repeat constructor. discriminate.
  - reflexivity.
  - apply (Hcall o count (VNum 5)); [reflexivity|]. vm_compute. reflexivity.
Defined.

Lemma group_reset_object (options : list (string * IReducerGroupNode))
    (reset : IReducerGroupResetNode) (o : gmap string value) (a : action) :
  reset_onUpdate reset = None →
  group_reset options reset (VObj o) a
  = Return (VObj (foldl (λ d kv, <[kv.1 := initState kv.2]> d) o options)).
Proof. intros Hup. unfold group_reset. rewrite Hup. by destruct options. Qed.

(** X21.  The reset action without a custom callback, on an object state
    that no entry's type claims, assigns every configured key its raw
    [initState], an omitted one being [undefined], and keeps the fields that
    are not configured. *)
Theorem group_reset_assigns_initState (options : list (string * IReducerGroupNode))
    (reset : IReducerGroupResetNode) (o : gmap string value) (a : action) :
  NoDup options.*1 →
  Forall (λ kv, node_type kv.2 ≠ type a) options →
  reset_type reset = type a →
  reset_onUpdate reset = None →
  ∃ o' : gmap string value,
    createReducerGroup options (Some reset) (VObj o) a = Return (VObj o')
    ∧ (∀ key node, (key, node) ∈ options → o' !! key = Some (initState node))
    ∧ (∀ key, key ∉ options.*1 → o' !! key = o !! key).
Proof.
  intros Hdup Hnone Htype Hup.
  exists (foldl (λ d kv, <[kv.1 := initState kv.2]> d) o options).
  split; [|split].
  - unfold createReducerGroup. simpl default_param.
    rewrite group_update_none by done. rewrite decide_True by done.
    by apply group_reset_object.
  - intros key node Hin. by apply (lookup_foldl_insert initState).
  - intros key Hnot. by apply (lookup_foldl_insert_other initState).
Qed.

Lemma group_reset_assigns_initState_witness :
  let options : list (string * IReducerGroupNode) :=
    [("mute", GroupNode "SET_MUTE" (VBool false) None);
     ("profile", GroupNode "SET_PROFILE" VUndefined None)] in
  let o : gmap string value :=
    <["mute" := VBool true]> (<["profile" := VStr "ann"]> (<["theme" := VStr "dark"]> ∅)) in
  ∃ o' : gmap string value,
    createReducerGroup options (Some (ResetNode "RESET_ALL" None)) (VObj o)
      (Action "RESET_ALL" VUndefined None) = Return (VObj o')
    ∧ o' !! "mute" = Some (VBool false)
    ∧ o' !! "profile" = Some VUndefined
    ∧ o' !! "theme" = Some (VStr "dark").
Proof.
  intros options o.
  destruct (group_reset_assigns_initState options (ResetNode "RESET_ALL" None) o
              (Action "RESET_ALL" VUndefined None)) as (o' & Ho & Hkeys & Hother).
  - apply (bool_decide_unpack _). vm_compute. exact I.
  - repeat constructor; discriminate.
  - reflexivity.
  - reflexivity.
  - exists o'. split; [exact Ho|].
    split; [apply (Hkeys "mute" (GroupNode "SET_MUTE" (VBool false) None));
            apply elem_of_cons; by left|].
    split; [apply (Hkeys "profile" (GroupNode "SET_PROFILE" VUndefined None));
            apply elem_of_cons; right; apply elem_of_cons; by left|].
    rewrite Hother; [vm_compute; reflexivity|]. simpl. intros Hin.
    repeat (apply elem_of_cons in Hin as [Hin|Hin]; [discriminate Hin|]).
    by apply elem_of_nil in Hin.
Defined.

(** X22.  Reset and the initial state agree only on truthy and [null]
    initial values.  Applied to the initial state, the reset action without a
    custom callback gives the initial state back exactly when every
    configured [initState] is truthy or [null]: a falsy one such as [false],
    [0] or an omitted one starts as [null] and is reset to itself. *)
Theorem group_reset_restores_initial (options : list (string * IReducerGroupNode))
    (reset : IReducerGroupResetNode) (a : action) :
  NoDup options.*1 →
  Forall (λ kv, node_type kv.2 ≠ type a) options →
  reset_type reset = type a →
  reset_onUpdate reset = None →
  createReducerGroup options (Some reset) VUndefined a
  = Return (VObj (mainInitialState options))
  ↔ Forall (λ kv, JS.truthy (initState kv.2) = true ∨ initState kv.2 = VNull) options.
Proof.
  intros Hdup Hnone Htype Hup. unfold createReducerGroup. simpl default_param.
  rewrite group_update_none by done. rewrite decide_True by done.
  rewrite group_reset_object by done. split.
  - intros [= Heq]. apply Forall_forall. intros [key node] Hin.
    apply (f_equal (λ m : gmap string value, m !! key)) in Heq.
    rewrite (lookup_foldl_insert initState _ _ key node) in Heq by done.
    unfold mainInitialState in Heq.
    rewrite (lookup_foldl_insert (λ n, JS.or (initState n) VNull) _ _ key node) in Heq
      by done.
    injection Heq as Heq. simpl. unfold JS.or in Heq.
    destruct (JS.truthy (initState node)); [by left | by right].
  - intros Hall. do 2 f_equal. apply map_eq. intros key.
    destruct (decide (key ∈ options.*1)) as [Hin|Hnot].
    + apply list_elem_of_fmap in Hin as ([key' node] & -> & Hin). simpl.
      rewrite (lookup_foldl_insert initState _ _ key' node) by done.
      unfold mainInitialState.
      rewrite (lookup_foldl_insert (λ n, JS.or (initState n) VNull) _ _ key' node)
        by done.
      f_equal. unfold JS.or.
      eapply Forall_forall in Hall; [|exact Hin]. simpl in Hall.
      destruct Hall as [-> | ->]; reflexivity.
    + by rewrite (lookup_foldl_insert_other initState).
Qed.

Lemma group_reset_restores_initial_witness :
  let reset := ResetNode "RESET_ALL" None in
  let a := Action "RESET_ALL" VUndefined None in
  createReducerGroup [("profile", GroupNode "SET_PROFILE" (VObj ∅) None)]
    (Some reset) VUndefined a
  = Return (VObj (mainInitialState [("profile", GroupNode "SET_PROFILE" (VObj ∅) None)]))
  ∧ createReducerGroup [("mute", GroupNode "SET_MUTE" (VBool false) None)]
      (Some reset) VUndefined a
    ≠ Return (VObj (mainInitialState [("mute", GroupNode "SET_MUTE" (VBool false) None)])).
Proof.
  intros reset a. split.
  - apply (group_reset_restores_initial
             [("profile", GroupNode "SET_PROFILE" (VObj ∅) None)] reset a).
    + apply (bool_decide_unpack _). vm_compute. exact I.
    + repeat constructor; discriminate.
    + reflexivity.
    + reflexivity.
    + apply Forall_cons. split; [by left | constructor].
  - intros Heq.
    apply (group_reset_restores_initial
             [("mute", GroupNode "SET_MUTE" (VBool false) None)] reset a) in Heq.
    + apply Forall_cons in Heq as [[Htruthy | Hnull] _]; discriminate.
    + apply (bool_decide_unpack _). vm_compute. exact I.
    + repeat constructor; discriminate.
    + reflexivity.
    + reflexivity.
Defined.

(** ** Reducer groups *)

Lemma lookup_createAsyncReducerGroup (nameTypePairs : gmap string name_type)
    (name : string) :
  createAsyncReducerGroup nameTypePairs !! name
  = (λ nt, match nt with
           | TypeOnly t => createAsyncReducer t None
           | TypeAndState t i => createAsyncReducer t (Some i)
           end) <$> nameTypePairs !! name.
Proof.
  unfold createAsyncReducerGroup.
  apply (map_fold_weak_ind (λ r (m : gmap string name_type), r !! name = _ <$> m !! name)).
  - by rewrite !lookup_empty.
  - intros i x m r Hi IH. destruct (decide (i = name)) as [->|Hne].
    + by rewrite !lookup_insert_eq.
    + by rewrite !lookup_insert_ne.
Qed.

Lemma lookup_createAsyncPagingReducerGroup (nameTypePairs : gmap string name_type)
    (name : string) :
  createAsyncPagingReducerGroup nameTypePairs !! name
  = (λ nt, match nt with
           | TypeOnly t => createAsyncPagingReducer t None
           | TypeAndState t i => createAsyncPagingReducer t (Some i)
           end) <$> nameTypePairs !! name.
Proof.
  unfold createAsyncPagingReducerGroup.
  apply (map_fold_weak_ind (λ r (m : gmap string name_type), r !! name = _ <$> m !! name)).
  - by rewrite !lookup_empty.
  - intros i x m r Hi IH. destruct (decide (i = name)) as [->|Hne].
    + by rewrite !lookup_insert_eq.
    + by rewrite !lookup_insert_ne.
Qed.

(** X24.  In a group every configured name gets a reducer, and the reducers
    of entries with different prefixes are independent: an action of a type
    derived from one entry's prefix is returned unchanged by the reducer of
    every entry with another prefix, for simple and for paging groups. *)
Theorem group_reducers_isolated (nameTypePairs : gmap string name_type)
    (n1 n2 : string) (nt1 nt2 : name_type) (s : gmap string value) (a : action) :
  nameTypePairs !! n1 = Some nt1 →
  nameTypePairs !! n2 = Some nt2 →
  actionType_of nt2 ≠ actionType_of nt1 →
  type a ∈ paging_types (actionType_of nt1) →
  (∃ reducer, createAsyncReducerGroup nameTypePairs !! n2 = Some reducer
              ∧ reducer (Some s) a = Return s)
  ∧ (∃ reducer, createAsyncPagingReducerGroup nameTypePairs !! n2 = Some reducer
                ∧ reducer (Some s) a = Return s).
Proof.
  intros _ H2 Hne Htype.
  pose proof (not_derived_from_other _ _ (type a) Hne Htype) as Hnot.
  split.
  - rewrite lookup_createAsyncReducerGroup, H2. simpl.
    eexists. split; [reflexivity|]. destruct nt2; simpl in Hnot; skip_switch Hnot.
  - rewrite lookup_createAsyncPagingReducerGroup, H2. simpl.
    eexists. split; [reflexivity|]. destruct nt2; simpl in Hnot; skip_switch Hnot.
Qed.

Lemma group_reducers_isolated_witness :
  let pairs : gmap string name_type :=
    <["productList" := TypeOnly "FETCH_PRODUCTS"]>
      (<["cartList" := TypeAndState "FETCH_CARTS" (<["data" := VArr []]> ∅)]> ∅) in
  let s : gmap string value := <["data" := VArr [VObj ∅]]> ∅ in
  ∃ reducer,
    createAsyncReducerGroup pairs !! "cartList" = Some reducer
    ∧ reducer (Some s) (Action "FETCH_PRODUCTS_SUCCESS" (VNum 1) None) = Return s.
Proof.
  intros pairs s.
  destruct (group_reducers_isolated pairs "productList" "cartList"
              (TypeOnly "FETCH_PRODUCTS")
              (TypeAndState "FETCH_CARTS" (<["data" := VArr []]> ∅)) s
              (Action "FETCH_PRODUCTS_SUCCESS" (VNum 1) None)) as [Hsimple _].
  - vm_compute. reflexivity.
  - vm_compute. reflexivity.
  - discriminate.
  - apply elem_of_cons. right. apply elem_of_cons. left. reflexivity.
  - exact Hsimple.
Defined.

(** ** configure and the default transforms *)

(** X25.  [configure] does not accumulate.  After two calls the
    configuration read by [getConfig] is the one [configure] returned last:
    each setting is the one the second call gave, or else the default, and
    nothing of the first call is left. *)
Theorem configure_replaces {V : Type} (_defaultConfig c1 c2 _config : gmap string V) :
  let first := Config.configure _defaultConfig c1 _config in
  let second := Config.configure _defaultConfig c2 first.1 in
  Config.getConfig second.1 = second.2
  ∧ second = Config.configure _defaultConfig c2 (Config.initial _defaultConfig)
  ∧ ∀ k, Config.getConfig second.1 !! k
         = match c2 !! k with Some v => Some v | None => _defaultConfig !! k end.
Proof.
  intros first second. split; [reflexivity|]. split; [reflexivity|].
  intros k. unfold Config.getConfig. simpl.
  rewrite lookup_union, lookup_union, lookup_empty.
  destruct (c2 !! k), (_defaultConfig !! k); reflexivity.
Qed.

(** X26.  The default result transforms never throw, whatever the response
    body is.  [transformSuccessResult] gives [undefined] for a [null] or
    [undefined] body and the body's [data] otherwise.  [transformFailResult]
    reports a failure, as an object holding the body's [message], exactly
    when the body's [success] is the boolean [false]; for every other body,
    a missing or non-boolean [success] and a [null] body included, it gives
    [null]. *)
Theorem default_transforms_total (result : value) :
  (∃ data, transformSuccessResult result = Return data
           ∧ (absent result = true → data = VUndefined)
           ∧ (absent result = false → JS.member result "data" = Return data))
  ∧ (JS.member result "success" = Return (VBool false) →
     ∃ message, JS.member result "message" = Return message
                ∧ transformFailResult result
                  = Return (VObj (<["message" := message]> ∅)))
  ∧ (JS.member result "success" ≠ Return (VBool false) →
     transformFailResult result = Return VNull).
Proof.
  unfold transformSuccessResult, transformFailResult, optional_member.
  destruct (absent result) eqn:Habsent.
  - rewrite !(member_absent _ _ Habsent).
    split; [exists VUndefined; by repeat split|]. split; [discriminate | done].
  - destruct (member_present result "data" Habsent) as [data Hdata].
    destruct (member_present result "success" Habsent) as [success Hsuccess].
    destruct (member_present result "message" Habsent) as [message Hmessage].
    rewrite Hdata, Hsuccess, Hmessage. simpl.
    split; [exists data; by repeat split|]. split.
    + intros [= ->]. by exists message.
    + intros Hne. destruct success as [ | |[]| | | |]; try reflexivity.
      by destruct Hne.
Qed.

Lemma default_transforms_total_witness :
  transformFailResult
    (VObj (<["success" := VBool false]> (<["message" := VStr "denied"]> ∅)))
  = Return (VObj (<["message" := VStr "denied"]> ∅))
  ∧ transformFailResult (VObj (<["success" := VNum 0]> ∅)) = Return VNull
  ∧ transformFailResult VNull = Return VNull.
Proof.
  split; [|split].
  - destruct (default_transforms_total
                (VObj (<["success" := VBool false]> (<["message" := VStr "denied"]> ∅))))
      as (_ & Hfail & _).
    destruct Hfail as (message & Hmessage & ->); [vm_compute; reflexivity|].
    vm_compute in Hmessage. by injection Hmessage as <-.
  - destruct (default_transforms_total (VObj (<["success" := VNum 0]> ∅)))
      as (_ & _ & Hnull).
    apply Hnull. vm_compute. discriminate.
  - destruct (default_transforms_total VNull) as (_ & _ & Hnull).
    apply Hnull. discriminate.
Defined.
